(** * wenet-kws: max-pooling loss and model composition

    A shallow embedding of [kws/model/loss.py] and [kws/model/kws_model.py],
    followed by the properties of the two functions [max_polling_loss] and
    [init_model] (and of [KWSModel.forward]).

    Numbers held in tensors are modelled as real numbers ([R]); every
    property below is an order-theoretic fact about [max], [min] and
    [clamp], and the logarithm is only ever applied, never inverted.
    Tensors are rectangular nested lists.  Python exceptions are values of
    [py_exn], identified by their class name.  The layer classes are
    outside the two files: a layer is the call that constructs it, and the
    exception a constructor raises on its arguments, if any, is a
    parameter. *)

From Stdlib Require Import Reals Lra Lia ZArith QArith.
From stdpp Require Import gmap strings list.

#[local] Set Warnings "-register-all".
#[local] Open Scope general_if_scope.

(** ** Python values, exceptions and the two effect monads *)

Module Py.

(** The values a loaded YAML configuration is made of. *)
Inductive pyval :=
| VNone
| VBool (b : bool)
| VInt (z : Z)
| VFloat (q : Q)
| VStr (s : string)
| VDict (d : gmap string pyval).

(** An exception: its class and the argument it was raised with. *)
Record py_exn := Exn { exn_class : string; exn_arg : pyval }.

Definition IndexError : py_exn := Exn "IndexError" VNone.
Definition RuntimeError : py_exn := Exn "RuntimeError" VNone.
Definition ZeroDivisionError : py_exn := Exn "ZeroDivisionError" VNone.
Definition TypeError : py_exn := Exn "TypeError" VNone.
Definition AttributeError : py_exn := Exn "AttributeError" VNone.
Definition KeyError (k : string) : py_exn := Exn "KeyError" (VStr k).
Definition SystemExit (code : Z) : py_exn := Exn "SystemExit" (VInt code).

(** A computation that returns or raises. *)
Inductive result (A : Type) :=
| Ok (a : A)
| Raise (e : py_exn).
Arguments Ok {A} a.
Arguments Raise {A} e.

#[export] Instance result_ret : MRet result := @Ok.
#[export] Instance result_bind : MBind result := fun A B f m =>
  match m with
  | Ok a => f a
  | Raise e => Raise e
  end.

(** [l[i]] for [0 <= i]: an [IndexError] out of range. *)
Definition index {A} (l : list A) (i : nat) : result A :=
  match l !! i with
  | Some x => Ok x
  | None => Raise IndexError
  end.

(** [for x in xs: s = body(x, s)], stopping at the first exception. *)
Fixpoint for_each {A S} (body : A -> S -> result S) (xs : list A) (s : S)
  : result S :=
  match xs with
  | [] => Ok s
  | x :: xs' => s' ← body x s; for_each body xs' s'
  end.

(** [[f(x) for x in xs]], stopping at the first exception. *)
Fixpoint traverse {A B} (f : A -> result B) (xs : list A) : result (list B) :=
  match xs with
  | [] => Ok []
  | x :: xs' => y ← f x; ys ← traverse f xs'; Ok (y :: ys)
  end.

End Py.
Export Py.

(** ** The tensor operations [loss.py] calls, on nested lists *)

Module Torch.

#[local] Open Scope R_scope.

Abbreviation Tensor1 := (list R).
Abbreviation Tensor2 := (list (list R)).
Abbreviation Tensor3 := (list (list (list R))).

(** [torch.clamp(x, lo, hi)] on one entry. *)
Definition clamp (lo hi x : R) : R := Rmin (Rmax x lo) hi.

(** Element-wise combination of two sizes along one axis, with torch's
    broadcasting rule: equal sizes pair up, a size of 1 is repeated,
    anything else is a [RuntimeError]. *)
Fixpoint zipM {A B C} (f : A -> B -> result C) (xs : list A) (ys : list B)
  : result (list C) :=
  match xs, ys with
  | [], [] => Ok []
  | x :: xs', y :: ys' => c ← f x y; cs ← zipM f xs' ys'; Ok (c :: cs)
  | _, _ => Raise RuntimeError
  end.

Definition bcast2 {A B C} (f : A -> B -> result C) (xs : list A)
  (ys : list B) : result (list C) :=
  if Nat.eqb (length xs) (length ys) then zipM f xs ys
  else match xs, ys with
       | _, [y] => zipM f xs (replicate (length xs) y)
       | [x], _ => zipM f (replicate (length ys) x) ys
       | _, _ => Raise RuntimeError
       end.

Definition fill (v : R) (e : R) (b : bool) : R := if b then v else e.

(** [x.masked_fill(m, v)] for a vector [x] and a boolean vector [m]. *)
Definition masked_fill (x : Tensor1) (m : list bool) (v : R) : result Tensor1 :=
  bcast2 (fun e b => Ok (fill v e b)) x m.

(** [x.masked_fill(m.unsqueeze(-1), v)] for [x] of shape (B, T, D) and
    [m] of shape (B', T'): the mask bit of a frame covers all its D
    entries. *)
Definition masked_fill_frames (x : Tensor3) (m : list (list bool)) (v : R)
  : result Tensor3 :=
  bcast2 (bcast2 (fun frame b => Ok (map (fun e => fill v e b) frame))) x m.

(** [x.max()] and [x.min()] of a vector; torch raises on an empty one. *)
Definition tmax (x : Tensor1) : result R :=
  match x with
  | [] => Raise RuntimeError
  | a :: rest => Ok (foldl Rmax a rest)
  end.

Definition tmin (x : Tensor1) : result R :=
  match x with
  | [] => Raise RuntimeError
  | a :: rest => Ok (foldl Rmin a rest)
  end.

(** [x.max(0)] of a vector: the maximum and the index of its first
    occurrence.  A reduction along an axis of size 0 is an [IndexError]. *)
Fixpoint argmax_from (best : R) (bi : nat) (i : nat) (rest : list R)
  : R * nat :=
  match rest with
  | [] => (best, bi)
  | y :: rest' =>
      if Rlt_dec best y then argmax_from y i (S i) rest'
      else argmax_from best bi (S i) rest'
  end.

Definition tmax_index (x : Tensor1) : result (R * nat) :=
  match x with
  | [] => Raise IndexError
  | a :: rest => Ok (argmax_from a 0%nat 1%nat rest)
  end.

(** The values of [x.max(1)] for [x] of shape (B, T, D): per utterance,
    the column-wise maximum over its frames. *)
Definition max_over_time (utt : list (list R)) : result (list R) :=
  match utt with
  | [] => Raise IndexError
  | frame :: rest => Ok (foldl (zip_with Rmax) frame rest)
  end.

(** [x.size(0)] and [x.size(2)]. *)
Definition size0 (x : Tensor3) : nat := length x.
Definition size2 (x : Tensor3) : nat :=
  match x with
  | (frame :: _) :: _ => length frame
  | _ => 0%nat
  end.

(** [x[i, :, j]]. *)
Definition column (x : Tensor3) (i j : nat) : result Tensor1 :=
  utt ← index x i; traverse (fun frame => index frame j) utt.

(** The stop of the slice [[:k]] on a sequence of [n] items. *)
Definition slice_stop (k : Z) (n : nat) : nat :=
  if (k <? 0)%Z then Z.to_nat (Z.max 0 (Z.of_nat n + k))
  else Z.to_nat (Z.min k (Z.of_nat n)).

(** [m[:k] = True]. *)
Definition set_prefix_true (m : list bool) (k : Z) : list bool :=
  let s := slice_stop k (length m) in
  replicate s true ++ drop s m.

End Torch.
Export Torch.

(** ** [kws/model/loss.py] *)

Module Loss.

#[local] Open Scope R_scope.

(** Modelled from the spec: [padding_mask] of [kws/utils/mask.py], which
    is not among the sources.  The mask has one row per utterance and one
    column per frame of the batch, whose time axis is as long as the
    longest utterance; [mask[i][t]] is true iff [t >= lengths[i]]. *)
Definition padding_mask (lengths : list Z) : list (list bool) :=
  let max_len := Z.to_nat (foldr Z.max 0%Z lengths) in
  map (fun l => map (fun t => bool_decide (l ≤ Z.of_nat t)%Z) (seq 0 max_len))
      lengths.

(** The floor of the clamp, [1e-8]. *)
Definition eps : R := 1e-8.

(** Lines 51-57: the keyword branch of the loop body. *)
Definition keyword_term (logits : Tensor3) (mask : list (list bool))
  (min_duration : Z) (i j : nat) : result R :=
  prob ← column logits i j;
  mi ← index mask i;
  let m := set_prefix_true mi min_duration in
  prob ← masked_fill prob m 0;
  let prob := map (clamp eps 1) prob in
  max_prob ← tmax prob;
  Ok (- ln max_prob).

(** Lines 60-64: the branch for the other keywords and for fillers. *)
Definition filler_term (logits : Tensor3) (mask : list (list bool))
  (i j : nat) : result R :=
  col ← column logits i j;
  let prob := map (fun p => 1 - p) col in
  mi ← index mask i;
  prob ← masked_fill prob mi 1;
  let prob := map (clamp eps 1) prob in
  min_prob ← tmin prob;
  Ok (- ln min_prob).

(** Lines 49-64: what one pass of the inner loop adds to [loss]. *)
Definition loss_term (logits : Tensor3) (mask : list (list bool))
  (target : list Z) (min_duration : Z) (i j : nat) : result R :=
  t ← index target i;
  if (t =? Z.of_nat j)%Z then keyword_term logits mask min_duration i j
  else filler_term logits mask i j.

(** Lines 45-65.  [loss] starts as the Python float [0.0]; it is still
    one when no utterance was visited, and then [loss / 0] raises. *)
Definition batch_loss (logits : Tensor3) (mask : list (list bool))
  (target : list Z) (min_duration : Z) : result R :=
  let num_utts := size0 logits in
  let num_keywords := size2 logits in
  loss ← for_each (fun i loss =>
            for_each (fun j loss =>
               term ← loss_term logits mask target min_duration i j;
               Ok (loss + term))
              (seq 0 num_keywords) loss)
          (seq 0 num_utts) 0;
  if Nat.eqb num_utts 0 then Raise ZeroDivisionError
  else Ok (loss / INR num_utts).

(** Lines 75-79: what one utterance adds to [num_correct].  The two
    conditions short-circuit, so [target[i]] is read only past the
    comparison with 0.5. *)
Definition correct_incr (max_p : R) (idx : nat) (target : list Z) (i : nat)
  : result nat :=
  n1 ← (if Rlt_dec 0.5 max_p
        then t ← index target i;
             Ok (if (Z.of_nat idx =? t)%Z then 1%nat else 0%nat)
        else Ok 0%nat);
  n2 ← (if Rlt_dec max_p 0.5
        then t ← index target i;
             Ok (if (t <? 0)%Z then 1%nat else 0%nat)
        else Ok 0%nat);
  Ok (n1 + n2)%nat.

(** Lines 68-70: the padded frames zeroed, then the maximum over time. *)
Definition masked_max_logits (logits : Tensor3) (mask : list (list bool))
  : result Tensor2 :=
  logits ← masked_fill_frames logits mask 0;
  traverse max_over_time logits.

(** Line 73: the greatest entry of row [i] and its position. *)
Definition utterance_pred (max_logits : Tensor2) (i : nat) : result (R * nat) :=
  row ← index max_logits i; tmax_index row.

(** Lines 68-80. *)
Definition batch_accuracy (logits : Tensor3) (mask : list (list bool))
  (target : list Z) : result R :=
  let num_utts := size0 logits in
  max_logits ← masked_max_logits logits mask;
  num_correct ← for_each (fun i num_correct =>
                   '(max_p, idx) ← utterance_pred max_logits i;
                   n ← correct_incr max_p idx target i;
                   Ok (num_correct + n)%nat)
                 (seq 0 num_utts) 0%nat;
  if Nat.eqb num_utts 0 then Raise ZeroDivisionError
  else Ok (INR num_correct / INR num_utts).

Definition max_polling_loss (logits : Tensor3) (target : list Z)
  (lengths : list Z) (min_duration : Z) : result (R * R) :=
  let mask := padding_mask lengths in
  loss ← batch_loss logits mask target min_duration;
  acc ← batch_accuracy logits mask target;
  Ok (loss, acc).

End Loss.
Export Loss.

(** ** [kws/model/kws_model.py] *)

Module Model.

(** *** The configuration dictionary *)

(** [v[k]] for a string key. *)
Definition getitem (v : pyval) (k : string) : result pyval :=
  match v with
  | VDict d =>
      match d !! k with
      | Some x => Ok x
      | None => Raise (KeyError k)
      end
  | _ => Raise TypeError
  end.

(** [v.get(k, dflt)]. *)
Definition get (v : pyval) (k : string) (dflt : pyval) : result pyval :=
  match v with
  | VDict d => Ok (default dflt (d !! k))
  | _ => Raise AttributeError
  end.

(** Whether [sub] occurs in [s]. *)
Definition is_substring (sub s : string) : bool :=
  match String.index 0 sub s with
  | Some _ => true
  | None => false
  end.

(** [k in v] for a string [k]: a key test on a dictionary, a substring
    test on a string, a [TypeError] on the other values. *)
Definition contains (k : string) (v : pyval) : result bool :=
  match v with
  | VDict d => Ok (bool_decide (is_Some (d !! k)))
  | VStr s => Ok (is_substring k s)
  | _ => Raise TypeError
  end.

(** [v is not None]. *)
Definition is_not_none (v : pyval) : bool :=
  match v with
  | VNone => false
  | _ => true
  end.

(** [v == s] for a string literal [s]. *)
Definition eq_str (v : pyval) (s : string) : bool :=
  match v with
  | VStr s' => bool_decide (s' = s)
  | _ => false
  end.

(** The truth value of [v] in an [if]. *)
Definition truthy (v : pyval) : bool :=
  match v with
  | VNone => false
  | VBool b => b
  | VInt z => negb (z =? 0)%Z
  | VFloat q => negb (Qeq_bool q 0)
  | VStr s => negb (bool_decide (s = EmptyString))
  | VDict d => negb (bool_decide (d = ∅))
  end.

(** *** The layers, as the constructor calls that build them

    The layer classes live outside the two source files; a layer is
    represented by the call that constructs it, arguments included.  A
    constructor may refuse its arguments and raise (so does
    [torch.nn.GRU] on [num_layers=0], or [torch.nn.Linear] on a negative
    size): which calls raise, and what, is a parameter of the
    composition. *)

Inductive cmvn_module :=
| GlobalCMVN (mean istd : list Q) (norm_var : pyval).

Inductive prep_module :=
| LinearSubsampling1 (idim odim : pyval)
| Conv1dSubsampling1 (idim odim : pyval).

Inductive block_class := CnnBlock | DsCnnBlock.

Inductive backbone_module :=
| GRU (input_size hidden_size : pyval) (num_layers : pyval)
      (batch_first : bool)
| TCN (num_layers channel kernel_size dropout : pyval) (block : block_class)
| MDTC (num_stack stack_size in_channels res_channels kernel_size : pyval)
       (causal : bool).

Inductive linear_module :=
| Linear (in_features out_features : pyval).

Record KWSModel := {
  idim : pyval;
  odim : pyval;
  hdim : pyval;
  global_cmvn : option cmvn_module;
  preprocessing : option prep_module;
  backbone : backbone_module;
  classifier : linear_module
}.

(** For each constructor call, the exception it raises, if any. *)
Record layer_classes := {
  cmvn_raises : cmvn_module -> option py_exn;
  prep_raises : prep_module -> option py_exn;
  backbone_raises : backbone_module -> option py_exn;
  linear_raises : linear_module -> option py_exn
}.

(** The constructor call [call]: it raises, or returns the layer. *)
Definition construct {A} (raises : A -> option py_exn) (call : A)
  : result A :=
  match raises call with
  | Some e => Raise e
  | None => Ok call
  end.

(** [KWSModel.__init__], lines 34-50: line 50 constructs the
    classifier. *)
Definition KWSModel_init (layers : layer_classes) (idim odim hdim : pyval)
  (global_cmvn : option cmvn_module) (preprocessing : option prep_module)
  (backbone : backbone_module) : result KWSModel :=
  classifier ← construct (linear_raises layers) (Linear hdim odim);
  Ok {| idim := idim; odim := odim; hdim := hdim;
        global_cmvn := global_cmvn; preprocessing := preprocessing;
        backbone := backbone; classifier := classifier |}.

(** *** Standard output next to the result *)

(** [print(template.format(arg))]. *)
Inductive output := Printed (template : string) (arg : pyval).

Inductive io (A : Type) := IO (out : list output) (r : result A).
Arguments IO {A} out r.

#[export] Instance io_ret : MRet io := fun A a => IO [] (Ok a).
#[export] Instance io_bind : MBind io := fun A B f m =>
  match m with
  | IO o (Ok a) => match f a with IO o' r => IO (o ++ o') r end
  | IO o (Raise e) => IO o (Raise e)
  end.

Definition lift {A} (r : result A) : io A := IO [] r.
Definition print (template : string) (arg : pyval) : io unit :=
  IO [Printed template arg] (Ok tt).
(** [sys.exit(code)] raises [SystemExit]. *)
Definition sys_exit {A} (code : Z) : io A := IO [] (Raise (SystemExit code)).

Section InitModel.

(** [load_cmvn] of [kws/utils/cmvn.py] reads the statistics file named
    by its argument; what it returns for each name is a parameter. *)
Variable load_cmvn : pyval -> result (list Q * list Q).

(** The layer classes the composer imports. *)
Variable layers : layer_classes.

(** Lines 64-73. *)
Definition init_global_cmvn (configs : pyval) : io (option cmvn_module) :=
  cmvn ← lift (get configs "cmvn" (VDict ∅));
  has_file ← lift (contains "cmvn_file" cmvn);
  file ← (if (has_file : bool)
          then f ← lift (getitem cmvn "cmvn_file"); mret (Some f)
          else mret None);
  match file with
  | Some f =>
      if is_not_none f then
        '(mean, istd) ← lift (load_cmvn f);
        norm_var ← lift (getitem cmvn "norm_var");
        global_cmvn ← lift (construct (cmvn_raises layers)
                              (GlobalCMVN mean istd norm_var));
        mret (Some global_cmvn)
      else mret None
  | None => mret None
  end.

(** Lines 79-88. *)
Definition init_preprocessing (configs input_dim hidden_dim : pyval)
  : io (option prep_module) :=
  prep ← lift (getitem configs "preprocessing");
  prep_type ← lift (getitem prep "type");
  if eq_str prep_type "linear" then
    preprocessing ← lift (construct (prep_raises layers)
                            (LinearSubsampling1 input_dim hidden_dim));
    mret (Some preprocessing)
  else if eq_str prep_type "cnn1d_s1" then
    preprocessing ← lift (construct (prep_raises layers)
                            (Conv1dSubsampling1 input_dim hidden_dim));
    mret (Some preprocessing)
  else if eq_str prep_type "none" then
    mret None
  else
    print "Unknown preprocessing type {}" prep_type;;
    sys_exit 1.

(** Lines 90-123: the backbone, and [hidden_dim] as it stands after the
    branch (the [mdtc] branch rebinds it). *)
Definition init_backbone (configs input_dim hidden_dim : pyval)
  : io (backbone_module * pyval) :=
  bb ← lift (getitem configs "backbone");
  backbone_type ← lift (getitem bb "type");
  if eq_str backbone_type "gru" then
    bb ← lift (getitem configs "backbone");
    num_layers ← lift (getitem bb "num_layers");
    backbone ← lift (construct (backbone_raises layers)
                       (GRU hidden_dim hidden_dim num_layers true));
    mret (backbone, hidden_dim)
  else if eq_str backbone_type "tcn" then
    bb ← lift (getitem configs "backbone");
    num_layers ← lift (getitem bb "num_layers");
    ds ← lift (get bb "ds" (VBool false));
    let block_class := if truthy ds then DsCnnBlock else CnnBlock in
    kernel_size ← lift (get bb "kernel_size" (VInt 8));
    dropout ← lift (get bb "drouput" (VFloat 0.1%Q));
    backbone ← lift (construct (backbone_raises layers)
                       (TCN num_layers hidden_dim kernel_size dropout
                          block_class));
    mret (backbone, hidden_dim)
  else if eq_str backbone_type "mdtc" then
    bb ← lift (getitem configs "backbone");
    stack_size ← lift (getitem bb "stack_size");
    num_stack ← lift (getitem bb "num_stack");
    kernel_size ← lift (getitem bb "kernel_size");
    hidden_dim ← lift (getitem bb "hidden_dim");
    backbone ← lift (construct (backbone_raises layers)
                       (MDTC num_stack stack_size input_dim hidden_dim
                          kernel_size true));
    mret (backbone, hidden_dim)
  else
    print "Unknown body type {}" backbone_type;;
    sys_exit 1.

(** Lines 63-127. *)
Definition init_model (configs : pyval) : io KWSModel :=
  global_cmvn ← init_global_cmvn configs;
  input_dim ← lift (getitem configs "input_dim");
  output_dim ← lift (getitem configs "output_dim");
  hidden_dim ← lift (getitem configs "hidden_dim");
  preprocessing ← init_preprocessing configs input_dim hidden_dim;
  '(backbone, hidden_dim) ← init_backbone configs input_dim hidden_dim;
  lift (KWSModel_init layers input_dim output_dim hidden_dim global_cmvn
          preprocessing backbone).

End InitModel.

(** *** [KWSModel.forward]

    What each layer computes (with its current weights) is a parameter;
    a layer may raise, for instance on an input of the wrong width. *)

Section Forward.

Variable Hidden : Type.
Variable cmvn_forward : cmvn_module -> Tensor3 -> result Tensor3.
Variable prep_forward : prep_module -> Tensor3 -> result Tensor3.
Variable backbone_forward :
  backbone_module -> Tensor3 -> result (Tensor3 * Hidden).
Variable linear_forward : linear_module -> Tensor3 -> result Tensor3.

Definition sigmoid (x : R) : R := (1 / (1 + exp (- x)))%R.

(** Lines 52-60.  A layer object is true in an [if]: none of the layer
    classes defines a length. *)
Definition forward (self : KWSModel) (x : Tensor3) : result Tensor3 :=
  x ← match global_cmvn self with
      | Some g => cmvn_forward g x
      | None => Ok x
      end;
  x ← match preprocessing self with
      | Some p => prep_forward p x
      | None => Ok x
      end;
  '(x, _) ← backbone_forward (backbone self) x;
  x ← linear_forward (classifier self) x;
  let x := map (map (map sigmoid)) x in
  Ok x.

End Forward.

End Model.
Export Model.

(** ** Vocabulary of the statements *)

Module Vocabulary.

(** The variant names the composer knows. *)
Definition preprocessing_types : list string := ["none"; "linear"; "cnn1d_s1"].
Definition backbone_types : list string := ["gru"; "tcn"; "mdtc"].

Definition known (names : list string) (v : pyval) : Prop :=
  ∃ s, v = VStr s ∧ s ∈ names.

(** [configs[section]['type']]. *)
Definition config_type (configs : pyval) (section : string) : result pyval :=
  sec ← getitem configs section; getitem sec "type".

Definition unknown_variant (configs : pyval) : Prop :=
  (∃ v, config_type configs "preprocessing" = Ok v
        ∧ ¬ known preprocessing_types v)
  ∨ (∃ v, config_type configs "backbone" = Ok v
          ∧ ¬ known backbone_types v).

(** The computation ends by raising an exception of class [cls]. *)
Definition raises {A} (cls : string) (r : io A) : Prop :=
  ∃ out e, r = IO out (Raise e) ∧ exn_class e = cls.

(** A loader for configurations without a statistics file. *)
Definition no_cmvn_file : pyval -> result (list Q * list Q) :=
  fun _ => Raise (Exn "FileNotFoundError" VNone).

(** A loader that finds statistics for one channel under every name. *)
Definition stats_loader : pyval -> result (list Q * list Q) :=
  fun _ => Ok ([1%Q], [2%Q]).

(** Layer classes whose constructors accept every argument. *)
Definition lenient : layer_classes :=
  {| cmvn_raises := fun _ => None; prep_raises := fun _ => None;
     backbone_raises := fun _ => None; linear_raises := fun _ => None |}.

Definition negative (v : pyval) : bool :=
  match v with
  | VInt n => (n <? 0)%Z
  | _ => false
  end.

(** Layer classes that check sizes: a recurrent backbone needs at least
    one layer, a projection or a linear layer sizes that are not
    negative. *)
Definition checking : layer_classes :=
  {| cmvn_raises := fun _ => None;
     prep_raises := fun p =>
       match p with
       | LinearSubsampling1 i o | Conv1dSubsampling1 i o =>
           if negative i || negative o then Some RuntimeError else None
       end;
     backbone_raises := fun b =>
       match b with
       | GRU _ _ (VInt 0) _ => Some (Exn "ValueError" VNone)
       | _ => None
       end;
     linear_raises := fun l =>
       match l with
       | Linear i o =>
           if negative i || negative o then Some RuntimeError else None
       end |}.

(** The model [KWSModel.__init__] leaves once its classifier is built. *)
Definition built_model (idim odim hdim : pyval)
  (global_cmvn : option cmvn_module) (preprocessing : option prep_module)
  (backbone : backbone_module) : KWSModel :=
  {| idim := idim; odim := odim; hdim := hdim;
     global_cmvn := global_cmvn; preprocessing := preprocessing;
     backbone := backbone; classifier := Linear hdim odim |}.

(** Sample configurations: 40 input channels, 2 keywords, 64 hidden
    units, no statistics file. *)
Definition sample_dict (prep_type backbone_type : string)
  (backbone_keys : gmap string pyval) : gmap string pyval :=
  <["input_dim" := VInt 40]> (<["output_dim" := VInt 2]>
  (<["hidden_dim" := VInt 64]>
  (<["preprocessing" := VDict {["type" := VStr prep_type]}]>
  (<["backbone" := VDict (<["type" := VStr backbone_type]> backbone_keys)]>
   ∅)))).

Definition sample_config (prep_type backbone_type : string)
  (backbone_keys : gmap string pyval) : pyval :=
  VDict (sample_dict prep_type backbone_type backbone_keys).

Definition mdtc_keys : gmap string pyval :=
  <["stack_size" := VInt 4]> (<["num_stack" := VInt 3]>
  (<["kernel_size" := VInt 5]> (<["hidden_dim" := VInt 32]> ∅))).

Definition mdtc_model : KWSModel :=
  built_model (VInt 40) (VInt 2) (VInt 32) None None
    (MDTC (VInt 3) (VInt 4) (VInt 40) (VInt 32) (VInt 5) true).

Definition tcn_keys : gmap string pyval := {["num_layers" := VInt 4]}.

Definition tcn_model : KWSModel :=
  built_model (VInt 40) (VInt 2) (VInt 64) None
    (Some (LinearSubsampling1 (VInt 40) (VInt 64)))
    (TCN (VInt 4) (VInt 64) (VInt 8) (VFloat 0.1%Q) CnnBlock).

(** *** Batches *)

(** Every utterance has [T] frames and every frame [D] entries. *)
Definition rectangular (logits : Tensor3) (T D : nat) : Prop :=
  Forall (fun utt =>
            length utt = T ∧ Forall (fun frame => length frame = D) utt)
         logits.

(** The posteriors and the lengths fit together: [B] utterances, at least
    one, padded to the longest one, which has [T] frames; [D] keywords, at
    least one; every utterance has at least one frame. *)
Definition batch_ok (logits : Tensor3) (lengths : list Z) (B T D : nat)
  : Prop :=
  length logits = B ∧ rectangular logits T D ∧ 1 ≤ B ∧ 1 ≤ D
  ∧ length lengths = B
  ∧ Forall (fun l => (0 < l ≤ Z.of_nat T)%Z) lengths
  ∧ foldr Z.max 0%Z lengths = Z.of_nat T.

(** A well-formed input of the evaluator. *)
Definition well_formed (logits : Tensor3) (target lengths : list Z)
  (B T D : nat) : Prop :=
  batch_ok logits lengths B T D ∧ length target = B.

(** [posteriors[i, t, j]]. *)
Definition posterior (logits : Tensor3) (i t j : nat) : R :=
  match logits !! i with
  | Some utt =>
      match utt !! t with
      | Some frame => default 0%R (frame !! j)
      | None => 0%R
      end
  | None => 0%R
  end.

(** The posteriors of keyword [j] in utterance [i] at the frames [t] of
    the batch with [first <= t < stop]. *)
Definition posteriors_between (logits : Tensor3) (i j : nat) (first stop : Z)
  (T : nat) : list R :=
  (fun t => posterior logits i t j)
    <$> filter (fun t : nat => (first ≤ Z.of_nat t < stop)%Z) (seq 0 T).

(** [posteriors[i, t, j]] with the padding of an utterance of [l] frames
    zeroed. *)
Definition masked_posterior (logits : Tensor3) (l : Z) (i t j : nat) : R :=
  fill 0%R (posterior logits i t j) (bool_decide (l ≤ Z.of_nat t)%Z).

(** The sum of [f 0], ..., [f (n - 1)]. *)
Definition Rsum (f : nat -> R) (n : nat) : R :=
  foldr Rplus 0%R (f <$> seq 0 n).

(** The evaluator ends by raising an exception of class [cls]. *)
Definition fails_with {A} (cls : string) (r : result A) : Prop :=
  ∃ e, r = Raise e ∧ exn_class e = cls.

(** What a returned number is, with 0 standing in for an exception. *)
Definition value_of (r : result R) : R :=
  match r with
  | Ok v => v
  | Raise _ => 0%R
  end.

(** One utterance with the frames flagged in [row] zeroed. *)
Definition zero_padding (utt : list (list R)) (row : list bool)
  : list (list R) :=
  zip_with (fun frame b => map (fun e => fill 0%R e b) frame) utt row.

(** The column-wise maximum over the frames of an utterance. *)
Definition columnwise_max (utt : list (list R)) : list R :=
  match utt with
  | [] => []
  | frame :: rest => foldl (zip_with Rmax) frame rest
  end.

(** A batch of two utterances of two frames and two keywords; the second
    utterance is a filler with one frame of padding. *)
Definition sample_logits : Tensor3 :=
  [[[0.9; 0.2]; [0.3; 0.1]]; [[0.4; 0.3]; [0.2; 0.6]]]%R.
Definition sample_target : list Z := [0; -1]%Z.
Definition sample_lengths : list Z := [2; 1]%Z.

(** One utterance of one frame and one keyword, with a target vector of
    two entries. *)
Definition short_logits : Tensor3 := [[[0.9%R]]].
Definition long_target : list Z := [0; -1]%Z.
Definition short_lengths : list Z := [1%Z].

End Vocabulary.
Export Vocabulary.

(** ** Further vocabulary *)

Module Coverage.

(** Two batches hold the same posteriors at every frame that is not
    padding. *)
Definition same_valid_frames (logits logits' : Tensor3) (lengths : list Z)
  : Prop :=
  ∀ i l t j, lengths !! i = Some l -> (Z.of_nat t < l)%Z ->
             posterior logits i t j = posterior logits' i t j.

(** Two labels name the same class: the same keyword, or two fillers. *)
Definition same_label (t t' : Z) : Prop := t = t' ∨ (t < 0 ∧ t' < 0)%Z.

(** The configuration names no statistics file: no [cmvn] section, or one
    without [cmvn_file], or one whose [cmvn_file] is [None]. *)
Definition no_statistics (d : gmap string pyval) : Prop :=
  match d !! "cmvn" with
  | None => True
  | Some (VDict c) => c !! "cmvn_file" = None ∨ c !! "cmvn_file" = Some VNone
  | Some _ => False
  end.

(** The keys [init_model] subscripts at the top level before it looks at
    the preprocessing type, in reading order. *)
Definition top_level_keys : list string :=
  ["input_dim"; "output_dim"; "hidden_dim"; "preprocessing"].

(** The first of [keys] that [d] lacks. *)
Fixpoint first_missing (d : gmap string pyval) (keys : list string)
  : option string :=
  match keys with
  | [] => None
  | k :: keys' =>
      match d !! k with
      | Some _ => first_missing d keys'
      | None => Some k
      end
  end.

(** The keys each backbone variant subscripts. *)
Definition backbone_keys (ty : string) : list string :=
  if decide (ty = "gru") then ["num_layers"]
  else if decide (ty = "tcn") then ["num_layers"]
  else if decide (ty = "mdtc")
       then ["stack_size"; "num_stack"; "kernel_size"; "hidden_dim"]
       else [].

(** What a stage may leave on standard output: nothing, or one line
    followed by [sys.exit(1)]. *)
Definition quiet_or_exit {A} (template : string) (c : io A) : Prop :=
  match c with
  | IO [] _ => True
  | IO [Printed t _] r => t = template ∧ r = Raise (SystemExit 1)
  | IO _ _ => False
  end.

(** The sample batch with other numbers in the padded frame of the
    filler utterance. *)
Definition repadded_logits : Tensor3 :=
  [[[0.9; 0.2]; [0.3; 0.1]]; [[0.4; 0.3]; [0.7; 0.8]]]%R.

(** The sample batch with a higher posterior for keyword 0 in the first
    frame of utterance 0. *)
Definition raised_logits : Tensor3 :=
  [[[0.95; 0.2]; [0.3; 0.1]]; [[0.4; 0.3]; [0.2; 0.6]]]%R.

(** A configuration that names a statistics file. *)
Definition cmvn_dict : gmap string pyval :=
  <["cmvn_file" := VStr "global_cmvn"]> {["norm_var" := VBool true]}.

Definition sample_dict_with_cmvn : gmap string pyval :=
  <["cmvn" := VDict cmvn_dict]> (sample_dict "none" "mdtc" mdtc_keys).

Definition cmvn_model : KWSModel :=
  built_model (VInt 40) (VInt 2) (VInt 32)
    (Some (GlobalCMVN [1%Q] [2%Q] (VBool true))) None
    (MDTC (VInt 3) (VInt 4) (VInt 40) (VInt 32) (VInt 5) true).

End Coverage.
Export Coverage.

(** ** Facts about the two monads *)

Lemma result_bind_ok {A B} (m : result A) (f : A -> result B) (b : B) :
  m ≫= f = Ok b ↔ ∃ a, m = Ok a ∧ f a = Ok b.
Proof.
  destruct m as [a|e]; simpl.
  - split; [eauto | intros (a' & [= <-] & ?); done].
  - split; [discriminate | intros (a' & [=] & _)].
Qed.

Lemma io_bind_ok {A B} (m : io A) (f : A -> io B) out (b : B) :
  m ≫= f = IO out (Ok b) ↔
  ∃ o1 a o2, m = IO o1 (Ok a) ∧ f a = IO o2 (Ok b) ∧ out = o1 ++ o2.
Proof.
  destruct m as [o1 [a|e]]; simpl.
  - destruct (f a) as [o2 r] eqn:Hf. split.
    + intros [= <- ->]. eauto 8.
    + intros (o1' & a' & o2' & [= <- <-] & Hf' & ->).
      rewrite Hf in Hf'. by injection Hf' as -> ->.
  - split; [discriminate | intros (? & ? & ? & [=] & _)].
Qed.

Lemma lift_ok {A} (r : result A) out (a : A) :
  lift r = IO out (Ok a) ↔ r = Ok a ∧ out = [].
Proof.
  unfold lift. split; [intros [= <- ->]; done | intros [-> ->]; done].
Qed.

Lemma io_bind_lift_ok {A B} (a : A) (f : A -> io B) :
  lift (Ok a) ≫= f = f a.
Proof. simpl. by destruct (f a). Qed.

Lemma getitem_dict (d : gmap string pyval) (k : string) (v : pyval) :
  d !! k = Some v -> getitem (VDict d) k = Ok v.
Proof. intros H. simpl. by rewrite H. Qed.

Lemma getitem_ok (c : pyval) (k : string) (v : pyval) :
  getitem c k = Ok v ↔ ∃ d, c = VDict d ∧ d !! k = Some v.
Proof.
  split.
  - destruct c; simpl; try discriminate.
    destruct (d !! k) eqn:E; [intros [= <-]; eauto | discriminate].
  - intros (d & -> & H). by apply getitem_dict.
Qed.

Lemma eq_str_true (v : pyval) (s : string) : eq_str v s = true ↔ v = VStr s.
Proof.
  destruct v; simpl; try (split; [discriminate | intros [=]]).
  rewrite bool_decide_eq_true. split; [by intros -> | by intros [= ->]].
Qed.

Lemma eq_str_unknown (names : list string) (v : pyval) (s : string) :
  ¬ known names v -> s ∈ names -> eq_str v s = false.
Proof.
  intros Hn Hs. destruct (eq_str v s) eqn:E; [|done].
  apply eq_str_true in E as ->. destruct Hn. by exists s.
Qed.

(** Inversion of a successful [x ← lift r; k]: names the value read and
    the equation that reads it. *)
Tactic Notation "read_ok" ident(H) "as" ident(x) ident(Hx) :=
  apply io_bind_ok in H as (? & x & ? & [Hx _]%lift_ok & H & _).

(** The same when the equation is of no use. *)
Tactic Notation "read_ok" ident(H) "as" ident(x) :=
  apply io_bind_ok in H as (? & x & ? & _ & H & _).

(** A recognised name is one of the listed ones. *)
Ltac known_name E :=
  apply eq_str_true in E as ->; eexists; split; [done | repeat constructor].

(** ** Model composition *)

(** *** Constructor calls *)

Lemma construct_ok {A} (raises : A -> option py_exn) (call x : A) :
  construct raises call = Ok x ↔ raises call = None ∧ x = call.
Proof.
  unfold construct. destruct (raises call) as [e|].
  - split; [discriminate | by intros [[=] _]].
  - split; [by intros [= <-] | by intros [_ ->]].
Qed.

(** Inversion of a successful [x ← lift (construct raises call); k]: the
    layer is the call, and the constructor did not raise. *)
Tactic Notation "built_ok" ident(H) "as" ident(Hc) :=
  apply io_bind_ok in H
    as (? & ? & ? & [[Hc ->]%construct_ok _]%lift_ok & H & _).

Lemma KWSModel_init_ok layers i o h g p b m :
  KWSModel_init layers i o h g p b = Ok m
  ↔ linear_raises layers (Linear h o) = None ∧ m = built_model i o h g p b.
Proof.
  unfold KWSModel_init. rewrite result_bind_ok. split.
  - intros (c & [Hc ->]%construct_ok & [= <-]). done.
  - intros [Hc ->]. exists (Linear h o). split; [by apply construct_ok | done].
Qed.

(** *** Sample configurations *)

Example gru_config :
  init_model no_cmvn_file lenient
    (sample_config "cnn1d_s1" "gru" {["num_layers" := VInt 2]})
  = IO [] (Ok (built_model (VInt 40) (VInt 2) (VInt 64) None
                 (Some (Conv1dSubsampling1 (VInt 40) (VInt 64)))
                 (GRU (VInt 64) (VInt 64) (VInt 2) true))).
Proof. vm_compute. reflexivity. Qed.

Example cmvn_config :
  init_model stats_loader lenient
    (VDict (<["cmvn" := VDict (<["cmvn_file" := VStr "global_cmvn"]>
                                 {["norm_var" := VBool true]})]>
              (sample_dict "none" "mdtc" mdtc_keys)))
  = IO [] (Ok (built_model (VInt 40) (VInt 2) (VInt 32)
                 (Some (GlobalCMVN [1%Q] [2%Q] (VBool true))) None
                 (MDTC (VInt 3) (VInt 4) (VInt 40) (VInt 32) (VInt 5) true))).
Proof. vm_compute. reflexivity. Qed.

Example unknown_backbone :
  init_model no_cmvn_file lenient (sample_config "none" "lstm" ∅)
  = IO [Printed "Unknown body type {}" (VStr "lstm")] (Raise (SystemExit 1)).
Proof. vm_compute. reflexivity. Qed.

Example missing_num_layers :
  init_model no_cmvn_file lenient (sample_config "none" "gru" ∅)
  = IO [] (Raise (KeyError "num_layers")).
Proof. vm_compute. reflexivity. Qed.

(** With layer classes that check sizes, the exception of a constructor
    is the outcome of the composition: a backbone without layers, a
    classifier with a negative size, and a projection with a negative size
    that hides the unknown backbone named after it. *)
Example refused_num_layers :
  init_model no_cmvn_file checking
    (sample_config "none" "gru" {["num_layers" := VInt 0]})
  = IO [] (Raise (Exn "ValueError" VNone)).
Proof. vm_compute. reflexivity. Qed.

Example refused_output_dim :
  init_model no_cmvn_file checking
    (VDict (<["output_dim" := VInt (-1)]>
              (sample_dict "none" "mdtc" mdtc_keys)))
  = IO [] (Raise RuntimeError).
Proof. vm_compute. reflexivity. Qed.

Example refused_projection_before_unknown_backbone :
  init_model no_cmvn_file checking
    (VDict (<["hidden_dim" := VInt (-1)]> (sample_dict "linear" "lstm" ∅)))
  = IO [] (Raise RuntimeError).
Proof. vm_compute. reflexivity. Qed.

(** *** Unknown variant names *)

(** A model is returned only for recognised variant names. *)
Lemma init_preprocessing_ok layers cfg i h out p :
  init_preprocessing layers cfg i h = IO out (Ok p) ->
  ∃ v, config_type cfg "preprocessing" = Ok v ∧ known preprocessing_types v.
Proof.
  unfold init_preprocessing, config_type. intros H.
  read_ok H as prep Hp.
  read_ok H as v Hv.
  exists v. rewrite Hp; simpl. split; [done|].
  unfold known, preprocessing_types.
  destruct (eq_str v "linear") eqn:E1; [known_name E1|].
  destruct (eq_str v "cnn1d_s1") eqn:E2; [known_name E2|].
  destruct (eq_str v "none") eqn:E3; [known_name E3|].
  discriminate.
Qed.

Lemma init_backbone_ok layers cfg i h out b :
  init_backbone layers cfg i h = IO out (Ok b) ->
  ∃ v, config_type cfg "backbone" = Ok v ∧ known backbone_types v.
Proof.
  unfold init_backbone, config_type. intros H.
  read_ok H as bb Hp.
  read_ok H as v Hv.
  exists v. rewrite Hp; simpl. split; [done|].
  unfold known, backbone_types.
  destruct (eq_str v "gru") eqn:E1; [known_name E1|].
  destruct (eq_str v "tcn") eqn:E2; [known_name E2|].
  destruct (eq_str v "mdtc") eqn:E3; [known_name E3|].
  discriminate.
Qed.

(** A returned model: every stage returned, the classifier was built. *)
Lemma init_model_ok_stages load layers cfg out m :
  init_model load layers cfg = IO out (Ok m) ->
  ∃ g i o h p b h' o1 o2 o3,
    init_global_cmvn load layers cfg = IO o1 (Ok g)
    ∧ getitem cfg "input_dim" = Ok i
    ∧ getitem cfg "output_dim" = Ok o
    ∧ getitem cfg "hidden_dim" = Ok h
    ∧ init_preprocessing layers cfg i h = IO o2 (Ok p)
    ∧ init_backbone layers cfg i h = IO o3 (Ok (b, h'))
    ∧ linear_raises layers (Linear h' o) = None
    ∧ m = built_model i o h' g p b.
Proof.
  unfold init_model. intros H.
  apply io_bind_ok in H as (o1 & g & ? & Hg & H & _).
  read_ok H as i Hi.
  read_ok H as o Ho.
  read_ok H as h Hh.
  apply io_bind_ok in H as (o2 & p & ? & Hp & H & _).
  apply io_bind_ok in H as (o3 & [b h'] & ? & Hb & H & _).
  apply lift_ok in H as [[Hc ->]%KWSModel_init_ok _].
  exists g, i, o, h, p, b, h', o1, o2, o3. done.
Qed.

Lemma init_model_ok_inv load layers cfg out m :
  init_model load layers cfg = IO out (Ok m) ->
  ∃ g i o h p b h' o1 o2 o3,
    init_global_cmvn load layers cfg = IO o1 (Ok g)
    ∧ getitem cfg "input_dim" = Ok i
    ∧ getitem cfg "output_dim" = Ok o
    ∧ getitem cfg "hidden_dim" = Ok h
    ∧ init_preprocessing layers cfg i h = IO o2 (Ok p)
    ∧ init_backbone layers cfg i h = IO o3 (Ok (b, h'))
    ∧ m = built_model i o h' g p b.
Proof.
  intros (g & i & o & h & p & b & h' & o1 & o2 & o3 & H)%init_model_ok_stages.
  exists g, i, o, h, p, b, h', o1, o2, o3. tauto.
Qed.

Lemma init_preprocessing_unknown layers cfg i h v :
  config_type cfg "preprocessing" = Ok v ->
  ¬ known preprocessing_types v ->
  init_preprocessing layers cfg i h
  = IO [Printed "Unknown preprocessing type {}" v] (Raise (SystemExit 1)).
Proof.
  unfold config_type, init_preprocessing.
  intros (prep & Hp & Hv)%result_bind_ok Hn.
  rewrite Hp, io_bind_lift_ok, Hv, io_bind_lift_ok.
  rewrite !(eq_str_unknown preprocessing_types)
    by (done || (repeat constructor)).
  reflexivity.
Qed.

Lemma init_backbone_unknown layers cfg i h v :
  config_type cfg "backbone" = Ok v ->
  ¬ known backbone_types v ->
  init_backbone layers cfg i h
  = IO [Printed "Unknown body type {}" v] (Raise (SystemExit 1)).
Proof.
  unfold config_type, init_backbone.
  intros (bb & Hp & Hv)%result_bind_ok Hn.
  rewrite Hp, io_bind_lift_ok, Hv, io_bind_lift_ok.
  rewrite !(eq_str_unknown backbone_types) by (done || (repeat constructor)).
  reflexivity.
Qed.

(** C3, as the code has it.  For a configuration whose
    [preprocessing.type] is not one of none, linear, cnn1d_s1, or whose
    [backbone.type] is not one of gru, tcn, mdtc, [init_model] returns no
    model, so it never falls back to a default variant.  Once the
    normalization stage and the three dimension keys have been read, an
    unknown [preprocessing.type] makes it print
    "Unknown preprocessing type <value>" and leave through [sys.exit(1)],
    that is a [SystemExit] with code 1; once the projection stage has
    returned as well (a known [preprocessing.type] whose layer, if any, was
    constructed), an unknown [backbone.type] makes it print
    "Unknown body type <value>" and leave the same way; and when the
    projection stage raises instead, its exception is the outcome. *)
Theorem init_model_unknown_type_exits load layers cfg :
  unknown_variant cfg ->
  (∀ out m, init_model load layers cfg ≠ IO out (Ok m))
  ∧ (∀ g i o h,
       init_global_cmvn load layers cfg = IO [] (Ok g) ->
       getitem cfg "input_dim" = Ok i ->
       getitem cfg "output_dim" = Ok o ->
       getitem cfg "hidden_dim" = Ok h ->
       (∀ v, config_type cfg "preprocessing" = Ok v ->
             ¬ known preprocessing_types v ->
             init_model load layers cfg
             = IO [Printed "Unknown preprocessing type {}" v]
                  (Raise (SystemExit 1)))
       ∧ (∀ p v, init_preprocessing layers cfg i h = IO [] (Ok p) ->
                 config_type cfg "backbone" = Ok v ->
                 ¬ known backbone_types v ->
                 init_model load layers cfg
                 = IO [Printed "Unknown body type {}" v]
                      (Raise (SystemExit 1)))
       ∧ (∀ e, init_preprocessing layers cfg i h = IO [] (Raise e) ->
               init_model load layers cfg = IO [] (Raise e))).
Proof.
  intros Hu. split.
  - intros out m H.
    apply init_model_ok_inv in H
      as (g & i & o & h & p & b & h' & o1 & o2 & o3
          & _ & _ & _ & _ & Hp & Hb & _).
    apply init_preprocessing_ok in Hp as (vp & Hvp & Hkp).
    apply init_backbone_ok in Hb as (vb & Hvb & Hkb).
    destruct Hu as [(v & Hv & Hn) | (v & Hv & Hn)]; congruence.
  - intros g i o h Hg Hi Ho Hh. unfold init_model. split_and!.
    + intros v Hv Hn.
      rewrite Hg; cbn [mbind io_bind].
      rewrite Hi, io_bind_lift_ok, Ho, io_bind_lift_ok, Hh, io_bind_lift_ok.
      by rewrite (init_preprocessing_unknown _ _ _ _ v).
    + intros p v Hp Hv Hn.
      rewrite Hg; cbn [mbind io_bind].
      rewrite Hi, io_bind_lift_ok, Ho, io_bind_lift_ok, Hh, io_bind_lift_ok.
      rewrite Hp. cbn [mbind io_bind].
      by rewrite (init_backbone_unknown _ _ _ _ v).
    + intros e He.
      rewrite Hg; cbn [mbind io_bind].
      rewrite Hi, io_bind_lift_ok, Ho, io_bind_lift_ok, Hh, io_bind_lift_ok.
      by rewrite He.
Qed.

Lemma not_known_conv : ¬ known preprocessing_types (VStr "conv").
Proof.
  intros (s & [= <-] & Hs). unfold preprocessing_types in Hs.
  repeat (apply elem_of_cons in Hs as [Hs|Hs]; [discriminate|]).
  by apply elem_of_nil in Hs.
Qed.

(** The theorem at a configuration asking for the preprocessing "conv". *)
Lemma init_model_unknown_type_exits_witness :
  init_model no_cmvn_file lenient (sample_config "conv" "tcn" ∅)
  = IO [Printed "Unknown preprocessing type {}" (VStr "conv")]
       (Raise (SystemExit 1)).
Proof.
  assert (Hc : config_type (sample_config "conv" "tcn" ∅) "preprocessing"
               = Ok (VStr "conv")) by (vm_compute; reflexivity).
  destruct (init_model_unknown_type_exits no_cmvn_file lenient
              (sample_config "conv" "tcn" ∅)) as [_ H].
  - left. exists (VStr "conv"). split; [exact Hc | exact not_known_conv].
  - eapply H; [vm_compute; reflexivity .. | exact Hc | exact not_known_conv].
Defined.

(** C3 as stated fails: the configuration asking for the preprocessing
    "conv" has an unknown variant, and composing it does not end in a
    [ConfigurationError]. *)
Lemma unknown_type_is_not_configuration_error :
  unknown_variant (sample_config "conv" "tcn" ∅)
  ∧ ¬ raises "ConfigurationError"
        (init_model no_cmvn_file lenient (sample_config "conv" "tcn" ∅)).
Proof.
  split.
  - left. exists (VStr "conv").
    split; [vm_compute; reflexivity | exact not_known_conv].
  - intros (out & e & H & Hc).
    vm_compute in H. injection H as _ <-. discriminate Hc.
Qed.

(** *** The hidden dimension of the [mdtc] variant *)

Lemma init_global_cmvn_ext load layers cfg cfg' :
  get cfg "cmvn" (VDict ∅) = get cfg' "cmvn" (VDict ∅) ->
  init_global_cmvn load layers cfg = init_global_cmvn load layers cfg'.
Proof. unfold init_global_cmvn. by intros ->. Qed.

Lemma init_preprocessing_ext layers cfg cfg' i h :
  getitem cfg "preprocessing" = getitem cfg' "preprocessing" ->
  init_preprocessing layers cfg i h = init_preprocessing layers cfg' i h.
Proof. unfold init_preprocessing. by intros ->. Qed.

Lemma init_backbone_ext layers cfg cfg' i h :
  getitem cfg "backbone" = getitem cfg' "backbone" ->
  init_backbone layers cfg i h = init_backbone layers cfg' i h.
Proof. unfold init_backbone. by intros ->. Qed.

Lemma get_insert_ne (d : gmap string pyval) (k k' : string) (v dflt : pyval) :
  k ≠ k' -> get (VDict (<[k:=v]> d)) k' dflt = get (VDict d) k' dflt.
Proof. intros H. simpl. by rewrite lookup_insert_ne. Qed.

Lemma getitem_insert_ne (d : gmap string pyval) (k k' : string) (v : pyval) :
  k ≠ k' -> getitem (VDict (<[k:=v]> d)) k' = getitem (VDict d) k'.
Proof. intros H. simpl. by rewrite lookup_insert_ne. Qed.

Lemma getitem_insert_eq (d : gmap string pyval) (k : string) (v : pyval) :
  getitem (VDict (<[k:=v]> d)) k = Ok v.
Proof. simpl. by rewrite lookup_insert_eq. Qed.

(** The [mdtc] branch. *)
Lemma init_backbone_mdtc layers cfg bb i h :
  getitem cfg "backbone" = Ok bb ->
  getitem bb "type" = Ok (VStr "mdtc") ->
  init_backbone layers cfg i h =
    (stack_size ← lift (getitem bb "stack_size");
     num_stack ← lift (getitem bb "num_stack");
     kernel_size ← lift (getitem bb "kernel_size");
     hidden_dim ← lift (getitem bb "hidden_dim");
     backbone ← lift (construct (backbone_raises layers)
                        (MDTC num_stack stack_size i hidden_dim
                           kernel_size true));
     mret (backbone, hidden_dim)).
Proof.
  intros Hb Ht. unfold init_backbone.
  rewrite Hb, io_bind_lift_ok, Ht, io_bind_lift_ok. simpl eq_str.
  cbn match. by rewrite io_bind_lift_ok.
Qed.

Lemma init_backbone_gru layers cfg bb i h :
  getitem cfg "backbone" = Ok bb ->
  getitem bb "type" = Ok (VStr "gru") ->
  init_backbone layers cfg i h =
    (num_layers ← lift (getitem bb "num_layers");
     backbone ← lift (construct (backbone_raises layers)
                        (GRU h h num_layers true));
     mret (backbone, h)).
Proof.
  intros Hb Ht. unfold init_backbone.
  rewrite Hb, io_bind_lift_ok, Ht, io_bind_lift_ok. simpl eq_str.
  cbn match. by rewrite io_bind_lift_ok.
Qed.

Lemma init_backbone_tcn layers cfg bb i h :
  getitem cfg "backbone" = Ok bb ->
  getitem bb "type" = Ok (VStr "tcn") ->
  init_backbone layers cfg i h =
    (num_layers ← lift (getitem bb "num_layers");
     ds ← lift (get bb "ds" (VBool false));
     kernel_size ← lift (get bb "kernel_size" (VInt 8));
     dropout ← lift (get bb "drouput" (VFloat 0.1%Q));
     backbone ← lift (construct (backbone_raises layers)
                        (TCN num_layers h kernel_size dropout
                           (if truthy ds then DsCnnBlock else CnnBlock)));
     mret (backbone, h)).
Proof.
  intros Hb Ht. unfold init_backbone.
  rewrite Hb, io_bind_lift_ok, Ht, io_bind_lift_ok. simpl eq_str.
  cbn match. by rewrite io_bind_lift_ok.
Qed.

(** C9.  When [init_model] returns a model for a configuration with
    [backbone.type] mdtc, the backbone is
    [MDTC(num_stack, stack_size, input_dim, hidden_dim', kernel_size,
    causal=True)] with the raw [input_dim] as its input size and
    [hidden_dim' = configs['backbone']['hidden_dim']]; the model's hidden
    dimension is [hidden_dim'] and the classifier is
    [Linear(hidden_dim', output_dim)], whatever value the top-level
    [hidden_dim] key holds: with any value [v] put there, a returned model
    has that same classifier, and a model is returned as soon as the
    projection stage returns for [v].  For gru and tcn the classifier is
    [Linear(configs['hidden_dim'], output_dim)]. *)
Theorem mdtc_classifier_input_dim load layers (d : gmap string pyval)
  bb ty out m :
  getitem (VDict d) "backbone" = Ok bb ->
  getitem bb "type" = Ok ty ->
  init_model load layers (VDict d) = IO out (Ok m) ->
  ∃ in_dim out_dim top_hidden,
    d !! "input_dim" = Some in_dim
    ∧ d !! "output_dim" = Some out_dim
    ∧ d !! "hidden_dim" = Some top_hidden
    ∧ (ty = VStr "mdtc" ->
       ∃ res num_stack stack_size kernel_size,
         getitem bb "hidden_dim" = Ok res
         ∧ backbone m = MDTC num_stack stack_size in_dim res kernel_size true
         ∧ hdim m = res
         ∧ classifier m = Linear res out_dim
         ∧ ∀ v,
             (∀ out' m',
                init_model load layers (VDict (<["hidden_dim" := v]> d))
                = IO out' (Ok m') ->
                classifier m' = Linear res out_dim)
             ∧ (∀ o' p',
                  init_preprocessing layers
                    (VDict (<["hidden_dim" := v]> d)) in_dim v
                  = IO o' (Ok p') ->
                  ∃ out' m',
                    init_model load layers (VDict (<["hidden_dim" := v]> d))
                    = IO out' (Ok m')))
    ∧ (ty = VStr "gru" ∨ ty = VStr "tcn" ->
       classifier m = Linear top_hidden out_dim).
Proof.
  intros Hbb Hty H.
  apply init_model_ok_stages in H
    as (g & i & o & h & p & b & h' & o1 & o2 & o3
        & Hg & Hi & Ho & Hh & Hp & Hb & Hlin & ->).
  exists i, o, h.
  apply getitem_ok in Hi as (? & [= <-] & Hi).
  apply getitem_ok in Ho as (? & [= <-] & Ho).
  apply getitem_ok in Hh as (? & [= <-] & Hh).
  repeat split; try done.
  - intros ->. rewrite (init_backbone_mdtc _ _ bb) in Hb by done.
    read_ok Hb as ss Hss.
    read_ok Hb as ns Hns.
    read_ok Hb as ks Hks.
    read_ok Hb as res Hres.
    pose proof Hb as Hbuilt.
    built_ok Hb as Hbk.
    injection Hb as _ <- <-.
    exists res, ns, ss, ks. repeat split; try done.
    + intros out' m' H'.
      apply init_model_ok_inv in H'
        as (g' & i' & o' & hv & p' & b' & h'' & o1' & o2' & o3'
            & _ & Hi' & Ho' & _ & _ & Hb' & ->).
      rewrite (getitem_insert_ne d "hidden_dim" "input_dim") in Hi' by done.
      rewrite (getitem_insert_ne d "hidden_dim" "output_dim") in Ho' by done.
      rewrite (getitem_dict d "input_dim" i) in Hi' by done.
      rewrite (getitem_dict d "output_dim" o) in Ho' by done.
      injection Hi' as <-. injection Ho' as <-.
      rewrite (init_backbone_ext _ _ (VDict d)) in Hb'
        by (by apply getitem_insert_ne).
      rewrite (init_backbone_mdtc _ _ bb) in Hb' by done.
      rewrite Hss, io_bind_lift_ok, Hns, io_bind_lift_ok, Hks, io_bind_lift_ok,
        Hres, io_bind_lift_ok in Hb'.
      built_ok Hb' as Hbk'.
      by injection Hb' as _ _ <-.
    + intros o' p' Hp'. unfold init_model.
      rewrite (init_global_cmvn_ext load layers _ (VDict d))
        by (by apply get_insert_ne).
      rewrite Hg; cbn [mbind io_bind].
      rewrite (getitem_insert_ne d "hidden_dim" "input_dim") by done.
      rewrite (getitem_dict d "input_dim" i), io_bind_lift_ok by done.
      rewrite (getitem_insert_ne d "hidden_dim" "output_dim") by done.
      rewrite (getitem_dict d "output_dim" o), io_bind_lift_ok by done.
      rewrite getitem_insert_eq, io_bind_lift_ok.
      rewrite Hp'. cbn [mbind io_bind].
      rewrite (init_backbone_ext _ _ (VDict d)) by (by apply getitem_insert_ne).
      rewrite (init_backbone_mdtc _ _ bb) by done.
      rewrite Hss, io_bind_lift_ok, Hns, io_bind_lift_ok, Hks, io_bind_lift_ok,
        Hres, io_bind_lift_ok.
      rewrite (proj2 (construct_ok _ _ _) (conj Hbk eq_refl)), io_bind_lift_ok.
      cbn [mret io_ret mbind io_bind].
      rewrite (proj2 (KWSModel_init_ok layers i o res g p'
                        (MDTC ns ss i res ks true) _) (conj Hlin eq_refl)).
      simpl. eauto.
  - intros [-> | ->].
    + rewrite (init_backbone_gru _ _ bb) in Hb by done.
      read_ok Hb as nl.
      built_ok Hb as Hbk.
      by injection Hb as _ _ <-.
    + rewrite (init_backbone_tcn _ _ bb) in Hb by done.
      read_ok Hb as nl.
      read_ok Hb as ds.
      read_ok Hb as ks.
      read_ok Hb as dr.
      built_ok Hb as Hbk.
      by injection Hb as _ _ <-.
Qed.

(** The theorem at a sample mdtc configuration: top-level hidden
    dimension 64, backbone hidden dimension 32. *)
Lemma mdtc_classifier_input_dim_witness :
  init_model no_cmvn_file lenient
    (VDict (sample_dict "none" "mdtc" mdtc_keys))
  = IO [] (Ok mdtc_model)
  ∧ classifier mdtc_model = Linear (VInt 32) (VInt 2).
Proof.
  assert (H : init_model no_cmvn_file lenient
                (VDict (sample_dict "none" "mdtc" mdtc_keys))
              = IO [] (Ok mdtc_model)) by (vm_compute; reflexivity).
  split; [exact H|].
  destruct (mdtc_classifier_input_dim no_cmvn_file lenient
              (sample_dict "none" "mdtc" mdtc_keys)
              (VDict (<["type" := VStr "mdtc"]> mdtc_keys)) (VStr "mdtc")
              [] mdtc_model)
    as (i & o & h & Hi & Ho & Hh & Hm & _);
    [vm_compute; reflexivity | vm_compute; reflexivity | exact H |].
  destruct (Hm eq_refl) as (res & ns & ss & ks & Hres & _ & _ & Hc & _).
  vm_compute in Ho, Hres. injection Ho as <-. injection Hres as <-.
  exact Hc.
Defined.

(** *** The dropout key of the [tcn] variant *)

Lemma init_backbone_dropout_key layers (d bbd : gmap string pyval) v i h :
  d !! "backbone" = Some (VDict bbd) ->
  init_backbone layers
    (VDict (<["backbone" := VDict (<["dropout" := v]> bbd)]> d)) i h
  = init_backbone layers (VDict d) i h.
Proof.
  intros Hb. unfold init_backbone.
  rewrite getitem_insert_eq, (getitem_dict d "backbone" _ Hb).
  rewrite !io_bind_lift_ok.
  rewrite (getitem_insert_ne bbd "dropout" "type") by done.
  destruct (getitem (VDict bbd) "type") as [ty|e]; [|done].
  rewrite !io_bind_lift_ok.
  rewrite (getitem_insert_ne bbd "dropout" "num_layers") by done.
  rewrite (getitem_insert_ne bbd "dropout" "stack_size") by done.
  rewrite (getitem_insert_ne bbd "dropout" "num_stack") by done.
  rewrite (getitem_insert_ne bbd "dropout" "kernel_size") by done.
  rewrite (getitem_insert_ne bbd "dropout" "hidden_dim") by done.
  rewrite (get_insert_ne bbd "dropout" "ds") by done.
  rewrite (get_insert_ne bbd "dropout" "kernel_size") by done.
  rewrite (get_insert_ne bbd "dropout" "drouput") by done.
  reflexivity.
Qed.

(** C10.  With [backbone.type] tcn, the dropout rate handed to [TCN] is
    the value of the backbone key spelled drouput, or 0.1 when that key is
    absent; adding or changing a key spelled dropout changes nothing in the
    outcome of [init_model], so a configuration that gives only dropout
    builds its backbone with rate 0.1. *)
Theorem tcn_dropout_key load layers (d bbd : gmap string pyval) :
  d !! "backbone" = Some (VDict bbd) ->
  bbd !! "type" = Some (VStr "tcn") ->
  (∀ out m, init_model load layers (VDict d) = IO out (Ok m) ->
     ∃ num_layers hidden kernel_size block,
       backbone m = TCN num_layers hidden kernel_size
                      (default (VFloat 0.1%Q) (bbd !! "drouput")) block)
  ∧ (∀ v, init_model load layers
            (VDict (<["backbone" := VDict (<["dropout" := v]> bbd)]> d))
          = init_model load layers (VDict d))
  ∧ (bbd !! "drouput" = None ->
     ∀ v out m,
       init_model load layers
         (VDict (<["backbone" := VDict (<["dropout" := v]> bbd)]> d))
       = IO out (Ok m) ->
       ∃ num_layers hidden kernel_size block,
         backbone m = TCN num_layers hidden kernel_size (VFloat 0.1%Q) block).
Proof.
  intros Hb Ht.
  assert (Hread : ∀ out m, init_model load layers (VDict d) = IO out (Ok m) ->
     ∃ num_layers hidden kernel_size block,
       backbone m = TCN num_layers hidden kernel_size
                      (default (VFloat 0.1%Q) (bbd !! "drouput")) block).
  { intros out m H.
    apply init_model_ok_inv in H
      as (g & i & o & h & p & b & h' & o1 & o2 & o3
          & _ & _ & _ & _ & _ & H & ->).
    rewrite (init_backbone_tcn _ _ (VDict bbd)) in H
      by (by apply getitem_dict).
    read_ok H as nl.
    read_ok H as ds.
    read_ok H as ks.
    read_ok H as dr Hdr.
    built_ok H as Hbk.
    injection Hdr as <-. injection H as _ <- <-. simpl. eauto. }
  assert (Hsame : ∀ v, init_model load layers
            (VDict (<["backbone" := VDict (<["dropout" := v]> bbd)]> d))
          = init_model load layers (VDict d)).
  { intros v. unfold init_model.
    rewrite (init_global_cmvn_ext load layers _ (VDict d))
      by (by apply get_insert_ne).
    destruct (init_global_cmvn load layers (VDict d)) as [o1 [g|e]]; [|done].
    cbn [mbind io_bind].
    rewrite (getitem_insert_ne d "backbone" "input_dim") by done.
    rewrite (getitem_insert_ne d "backbone" "output_dim") by done.
    rewrite (getitem_insert_ne d "backbone" "hidden_dim") by done.
    destruct (getitem (VDict d) "input_dim") as [i|e]; [|done].
    destruct (getitem (VDict d) "output_dim") as [o|e]; [|done].
    destruct (getitem (VDict d) "hidden_dim") as [h|e]; [|done].
    rewrite !io_bind_lift_ok.
    rewrite (init_preprocessing_ext _ _ (VDict d))
      by (by apply getitem_insert_ne).
    destruct (init_preprocessing layers (VDict d) i h) as [o2 [p|e]]; [|done].
    cbn [mbind io_bind].
    by rewrite init_backbone_dropout_key. }
  split; [exact Hread|]. split; [exact Hsame|].
  intros Hnone v out m H. rewrite Hsame in H.
  apply Hread in H. by rewrite Hnone in H.
Qed.

(** The theorem at a sample tcn configuration with [dropout: 0.5]. *)
Lemma tcn_dropout_key_witness :
  init_model no_cmvn_file lenient
    (VDict (<["backbone" := VDict (<["dropout" := VFloat 0.5%Q]>
                                     (<["type" := VStr "tcn"]> tcn_keys))]>
              (sample_dict "linear" "tcn" tcn_keys)))
  = IO [] (Ok tcn_model)
  ∧ ∃ num_layers hidden kernel_size block,
      backbone tcn_model
      = TCN num_layers hidden kernel_size (VFloat 0.1%Q) block.
Proof.
  assert (H : init_model no_cmvn_file lenient
    (VDict (<["backbone" := VDict (<["dropout" := VFloat 0.5%Q]>
                                     (<["type" := VStr "tcn"]> tcn_keys))]>
              (sample_dict "linear" "tcn" tcn_keys)))
  = IO [] (Ok tcn_model)) by (vm_compute; reflexivity).
  split; [exact H|].
  destruct (tcn_dropout_key no_cmvn_file lenient
              (sample_dict "linear" "tcn" tcn_keys)
              (<["type" := VStr "tcn"]> tcn_keys)) as (_ & _ & Hd);
    [vm_compute; reflexivity | vm_compute; reflexivity |].
  apply (Hd ltac:(vm_compute; reflexivity) (VFloat 0.5%Q) [] tcn_model H).
Defined.

(** *** The forward pass *)

Lemma sigmoid_range (x : R) : (0 <= sigmoid x <= 1)%R.
Proof.
  unfold sigmoid. pose proof (exp_pos (- x)) as He.
  assert (Hd : (0 < 1 + exp (- x))%R) by lra.
  split.
  - apply Rlt_le, Rdiv_lt_0_compat; lra.
  - apply (Rmult_le_reg_r (1 + exp (- x))); [done|].
    unfold Rdiv. rewrite Rmult_assoc, Rinv_l by lra. lra.
Qed.

Lemma sigmoid_tensor_range (x : Tensor3) :
  Forall (Forall (Forall (fun p => (0 <= p <= 1)%R)))
    (map (map (map sigmoid)) x).
Proof.
  apply Forall_map, Forall_true; intros utt.
  apply Forall_map, Forall_true; intros frame.
  apply Forall_map, Forall_true; intros e.
  apply sigmoid_range.
Qed.

Section ForwardFacts.

Context {Hidden : Type}.
Variable cmvn_forward : cmvn_module -> Tensor3 -> result Tensor3.
Variable prep_forward : prep_module -> Tensor3 -> result Tensor3.
Variable backbone_forward :
  backbone_module -> Tensor3 -> result (Tensor3 * Hidden).
Variable linear_forward : linear_module -> Tensor3 -> result Tensor3.

(** C8.  [forward] returns [y] exactly when the stages, run one after the
    other, return: the normalization if the model has one, the projection
    if it has one, the backbone, the linear classifier; [y] is then the
    element-wise sigmoid of the classifier's output, and each of its
    entries lies in [0, 1]. *)
Theorem forward_stages_in_sequence (self : KWSModel) (x y : Tensor3) :
  forward Hidden cmvn_forward prep_forward backbone_forward linear_forward
    self x = Ok y
  ↔ ∃ x1 x2 x3 h x4,
      match global_cmvn self with
      | Some g => cmvn_forward g x = Ok x1
      | None => x1 = x
      end
      ∧ match preprocessing self with
        | Some p => prep_forward p x1 = Ok x2
        | None => x2 = x1
        end
      ∧ backbone_forward (backbone self) x2 = Ok (x3, h)
      ∧ linear_forward (classifier self) x3 = Ok x4
      ∧ y = map (map (map sigmoid)) x4
      ∧ Forall (Forall (Forall (fun p => (0 <= p <= 1)%R))) y.
Proof.
  unfold forward. split.
  - intros H.
    apply result_bind_ok in H as (x1 & H1 & H).
    apply result_bind_ok in H as (x2 & H2 & H).
    apply result_bind_ok in H as ([x3 h] & H3 & H).
    apply result_bind_ok in H as (x4 & H4 & [= <-]).
    exists x1, x2, x3, h, x4. split_and!; try done.
    + destruct (global_cmvn self); [done | by injection H1].
    + destruct (preprocessing self); [done | by injection H2].
    + apply sigmoid_tensor_range.
  - intros (x1 & x2 & x3 & h & x4 & H1 & H2 & H3 & H4 & -> & _).
    apply result_bind_ok. exists x1. split.
    { destruct (global_cmvn self); [done | by subst]. }
    apply result_bind_ok. exists x2. split.
    { destruct (preprocessing self); [done | by subst]. }
    apply result_bind_ok. exists (x3, h). split; [done|].
    apply result_bind_ok. exists x4. done.
Qed.

End ForwardFacts.

(** The theorem at the sample mdtc model with layers that return their
    input: the posterior of the input 0 is [sigmoid 0]. *)
Lemma forward_stages_in_sequence_witness :
  Forall (Forall (Forall (fun p => (0 <= p <= 1)%R))) [[[sigmoid 0]]].
Proof.
  destruct (proj1 (forward_stages_in_sequence (Hidden := unit)
                     (fun _ x => Ok x) (fun _ x => Ok x)
                     (fun _ x => Ok (x, tt)) (fun _ x => Ok x)
                     mdtc_model [[[0%R]]] [[[sigmoid 0]]]) eq_refl)
    as (x1 & x2 & x3 & h & x4 & _ & _ & _ & _ & _ & Hrange).
  exact Hrange.
Defined.

(** ** The evaluator *)

#[local] Open Scope R_scope.

(** *** Maxima, minima and the clamp *)

Lemma foldl_Rmax_spec (rest : list R) (a : R) :
  foldl Rmax a rest ∈ a :: rest ∧ ∀ x, x ∈ a :: rest -> x <= foldl Rmax a rest.
Proof.
  revert a. induction rest as [|b rest IH]; intros a; simpl.
  - split; [left|]. intros x ->%list_elem_of_singleton. lra.
  - destruct (IH (Rmax a b)) as [Hin Hub]. split.
    + apply elem_of_cons in Hin as [Hin|Hin]; [|by do 2 right].
      rewrite Hin. unfold Rmax. destruct (Rle_dec a b); [right; left | left].
    + intros x Hx.
      assert (Hab : a <= Rmax a b ∧ b <= Rmax a b)
        by (split; [apply Rmax_l | apply Rmax_r]).
      assert (HM : Rmax a b <= foldl Rmax (Rmax a b) rest) by (apply Hub; left).
      apply elem_of_cons in Hx as [-> | Hx]; [lra|].
      apply elem_of_cons in Hx as [-> | Hx]; [lra|].
      apply Hub. by right.
Qed.

Lemma foldl_Rmin_spec (rest : list R) (a : R) :
  foldl Rmin a rest ∈ a :: rest ∧ ∀ x, x ∈ a :: rest -> foldl Rmin a rest <= x.
Proof.
  revert a. induction rest as [|b rest IH]; intros a; simpl.
  - split; [left|]. intros x ->%list_elem_of_singleton. lra.
  - destruct (IH (Rmin a b)) as [Hin Hub]. split.
    + apply elem_of_cons in Hin as [Hin|Hin]; [|by do 2 right].
      rewrite Hin. unfold Rmin. destruct (Rle_dec a b); [left | right; left].
    + intros x Hx.
      assert (Hab : Rmin a b <= a ∧ Rmin a b <= b)
        by (split; [apply Rmin_l | apply Rmin_r]).
      assert (HM : foldl Rmin (Rmin a b) rest <= Rmin a b) by (apply Hub; left).
      apply elem_of_cons in Hx as [-> | Hx]; [lra|].
      apply elem_of_cons in Hx as [-> | Hx]; [lra|].
      apply Hub. by right.
Qed.

(** [tmax] returns the greatest entry, and it is determined by that. *)
Lemma tmax_spec (l : list R) (M : R) :
  tmax l = Ok M ↔ M ∈ l ∧ ∀ x, x ∈ l -> x <= M.
Proof.
  destruct l as [|a rest]; simpl.
  - split; [discriminate | intros [H%elem_of_nil _]; done].
  - pose proof (foldl_Rmax_spec rest a) as [Hin Hub]. split.
    + intros [= <-]. done.
    + intros [HM HubM]. f_equal.
      apply Rle_antisym; [by apply HubM | by apply Hub].
Qed.

Lemma tmin_spec (l : list R) (M : R) :
  tmin l = Ok M ↔ M ∈ l ∧ ∀ x, x ∈ l -> M <= x.
Proof.
  destruct l as [|a rest]; simpl.
  - split; [discriminate | intros [H%elem_of_nil _]; done].
  - pose proof (foldl_Rmin_spec rest a) as [Hin Hub]. split.
    + intros [= <-]. done.
    + intros [HM HubM]. f_equal.
      apply Rle_antisym; [by apply Hub | by apply HubM].
Qed.

Lemma tmax_nonempty (l : list R) : l ≠ [] -> ∃ M, tmax l = Ok M.
Proof. destruct l; [done | simpl; eauto]. Qed.

Lemma tmin_nonempty (l : list R) : l ≠ [] -> ∃ M, tmin l = Ok M.
Proof. destruct l; [done | simpl; eauto]. Qed.

Lemma eps_range : 0 < eps <= 1.
Proof. unfold eps. lra. Qed.

Lemma clamp_mono (x y : R) : x <= y -> clamp eps 1 x <= clamp eps 1 y.
Proof.
  intros H. unfold clamp.
  apply Rle_min_compat_r, Rle_max_compat_r, H.
Qed.

Lemma clamp_bounds (x : R) : eps <= clamp eps 1 x <= 1.
Proof.
  pose proof eps_range as He. unfold clamp, Rmin, Rmax.
  destruct (Rle_dec x eps); destruct (Rle_dec _ 1); lra.
Qed.

Lemma clamp_floor (x : R) : x <= eps -> clamp eps 1 x = eps.
Proof.
  pose proof eps_range as He. intros H. unfold clamp, Rmin, Rmax.
  destruct (Rle_dec x eps); destruct (Rle_dec _ 1); lra.
Qed.

Lemma clamp_ceiling (x : R) : 1 <= x -> clamp eps 1 x = 1.
Proof.
  pose proof eps_range as He. intros H. unfold clamp, Rmin, Rmax.
  destruct (Rle_dec x eps); destruct (Rle_dec _ 1); lra.
Qed.

Lemma clamp_id (x : R) : eps <= x <= 1 -> clamp eps 1 x = x.
Proof.
  intros H. unfold clamp, Rmin, Rmax.
  destruct (Rle_dec x eps); destruct (Rle_dec _ 1); lra.
Qed.

(** Evaluation of the evaluator on a batch of numerals: the list
    structure is computed, each [clamp], [max] and [min] is settled by
    comparing the numerals, and so is each test against 0.5. *)
Ltac settle_extrema :=
  repeat first
    [ rewrite clamp_id by (unfold eps; lra)
    | rewrite clamp_floor by (unfold eps; lra)
    | rewrite Rmax_left by (unfold eps; lra)
    | rewrite Rmax_right by (unfold eps; lra)
    | rewrite Rmin_left by (unfold eps; lra)
    | rewrite Rmin_right by (unfold eps; lra) ].

Ltac settle_tests :=
  repeat match goal with
         | |- context [Rlt_dec ?a ?b] => destruct (Rlt_dec a b); try lra
         end.

Ltac evaluate_batch :=
  cbv -[Rplus Rminus Ropp Rdiv Rmult Rinv ln IZR Rlt_dec INR clamp eps
        Rmax Rmin];
  settle_extrema; settle_tests.

#[local] Close Scope R_scope.

(** *** Vectors, masks and columns *)

Lemma zipM_ok {A B C} (f : A -> B -> result C) (g : A -> B -> C)
  (xs : list A) (ys : list B) :
  length xs = length ys ->
  (∀ k x y, xs !! k = Some x -> ys !! k = Some y -> f x y = Ok (g x y)) ->
  zipM f xs ys = Ok (zip_with g xs ys).
Proof.
  revert ys. induction xs as [|x xs IH]; intros [|y ys] Hlen Hf;
    simpl in *; try done.
  rewrite (Hf 0%nat x y) by done. simpl.
  rewrite IH; [done | lia |].
  intros k x' y' Hx Hy. by apply (Hf (S k)).
Qed.

Lemma bcast2_ok {A B C} (f : A -> B -> result C) (g : A -> B -> C)
  (xs : list A) (ys : list B) :
  length xs = length ys ->
  (∀ k x y, xs !! k = Some x -> ys !! k = Some y -> f x y = Ok (g x y)) ->
  bcast2 f xs ys = Ok (zip_with g xs ys).
Proof.
  intros Hlen Hf. unfold bcast2.
  rewrite (proj2 (Nat.eqb_eq _ _) Hlen). by apply zipM_ok.
Qed.

Lemma masked_fill_ok (x : Tensor1) (m : list bool) (v : R) :
  length x = length m -> masked_fill x m v = Ok (zip_with (fill v) x m).
Proof. intros H. unfold masked_fill. by apply bcast2_ok. Qed.

Lemma traverse_ok {A B} (f : A -> result B) (g : A -> B) (xs : list A) :
  (∀ x, x ∈ xs -> f x = Ok (g x)) -> traverse f xs = Ok (g <$> xs).
Proof.
  induction xs as [|x xs IH]; intros Hf; simpl; [done|].
  rewrite Hf by left. simpl. rewrite IH; [done|].
  intros y Hy. apply Hf. by right.
Qed.

Lemma index_ok {A} (l : list A) (i : nat) (x : A) :
  index l i = Ok x ↔ l !! i = Some x.
Proof.
  unfold index. destruct (l !! i); split; try done; by intros [= ->].
Qed.

Lemma rectangular_lookup logits T D i utt :
  rectangular logits T D -> logits !! i = Some utt ->
  length utt = T ∧ Forall (fun frame => length frame = D) utt.
Proof.
  intros Hr Hi. unfold rectangular in Hr.
  rewrite Forall_lookup in Hr. by apply (Hr i).
Qed.

(** [logits[i, :, j]] lists the posteriors of keyword [j] frame by frame. *)
Lemma column_ok logits T D i j :
  rectangular logits T D -> (i < length logits)%nat -> (j < D)%nat ->
  column logits i j = Ok ((fun t => posterior logits i t j) <$> seq 0 T).
Proof.
  intros Hr Hi Hj. unfold column.
  destruct (lookup_lt_is_Some_2 logits i Hi) as [utt Hutt].
  rewrite (proj2 (index_ok _ _ _) Hutt). simpl.
  destruct (rectangular_lookup _ _ _ _ _ Hr Hutt) as [HT HD].
  rewrite (traverse_ok _ (fun frame => default 0%R (frame !! j))).
  - f_equal. apply list_eq. intros t.
    rewrite !list_lookup_fmap.
    destruct (decide (t < T)%nat) as [Ht|Ht].
    + rewrite lookup_seq_lt by done. simpl.
      unfold posterior. rewrite Hutt.
      destruct (utt !! t) eqn:E; [done|].
      apply lookup_ge_None in E. lia.
    + rewrite lookup_seq_ge by lia. simpl.
      rewrite lookup_ge_None_2 by lia. done.
  - intros frame Hf. rewrite Forall_forall in HD.
    specialize (HD frame Hf).
    destruct (lookup_lt_is_Some_2 frame j ltac:(lia)) as [p Hp].
    unfold index. by rewrite Hp.
Qed.

Lemma foldr_Zmax_ub (lengths : list Z) (l : Z) :
  l ∈ lengths -> (l ≤ foldr Z.max 0 lengths)%Z.
Proof.
  induction lengths as [|a ls IH]; [by intros ?%elem_of_nil|].
  intros [-> | H]%elem_of_cons; simpl; [lia|].
  specialize (IH H). lia.
Qed.

Lemma padding_mask_row (lengths : list Z) (T : nat) (i : nat) (l : Z) :
  foldr Z.max 0%Z lengths = Z.of_nat T ->
  lengths !! i = Some l ->
  padding_mask lengths !! i
  = Some ((fun t : nat => bool_decide (l ≤ Z.of_nat t)%Z) <$> seq 0 T).
Proof.
  intros HT Hl. unfold padding_mask.
  rewrite HT, Nat2Z.id, list_lookup_fmap, Hl. done.
Qed.

Lemma padding_mask_length (lengths : list Z) :
  length (padding_mask lengths) = length lengths.
Proof. unfold padding_mask. by rewrite length_map. Qed.

(** [m[:k] = True] for [0 <= k]: the frames before [k] are set, the others
    keep their bit. *)
Lemma set_prefix_true_lookup (m : list bool) (k : Z) (t : nat) (b : bool) :
  (0 ≤ k)%Z -> m !! t = Some b ->
  set_prefix_true m k !! t = Some (bool_decide (Z.of_nat t < k)%Z || b).
Proof.
  intros Hk Ht. unfold set_prefix_true, slice_stop.
  pose proof (lookup_lt_Some _ _ _ Ht) as Hlt.
  destruct (k <? 0)%Z eqn:E; [lia|]. clear E.
  remember (Z.to_nat (Z.min k (Z.of_nat (length m)))) as s eqn:Hs.
  destruct (decide (Z.of_nat t < k)%Z) as [H|H].
  - rewrite bool_decide_eq_true_2 by done. simpl.
    rewrite lookup_app_l by (rewrite length_replicate; lia).
    apply lookup_replicate_2. lia.
  - rewrite bool_decide_eq_false_2 by done. simpl.
    rewrite lookup_app_r by (rewrite length_replicate; lia).
    rewrite length_replicate, lookup_drop. rewrite <- Ht. f_equal. lia.
Qed.

Lemma set_prefix_true_length (m : list bool) (k : Z) :
  length (set_prefix_true m k) = length m.
Proof.
  unfold set_prefix_true, slice_stop.
  rewrite length_app, length_replicate, length_drop.
  destruct (k <? 0)%Z eqn:E; lia.
Qed.

(** A mask of one column is repeated along the vector. *)
Example mask_of_one_column_is_repeated :
  masked_fill [0.3; 0.4]%R [true] 0 = Ok [0; 0]%R.
Proof. reflexivity. Qed.

(** The mask of the specification's example. *)
Example padding_mask_example :
  padding_mask [3; 5]%Z
  = [[false; false; false; true; true]; [false; false; false; false; false]].
Proof. reflexivity. Qed.

(** A negative [k] counts from the end, as Python slices do. *)
Example set_prefix_true_negative :
  set_prefix_true [false; false; false] (-1) = [true; true; false].
Proof. reflexivity. Qed.

(** *** The two branches of the loop body *)

Lemma masked_column (f : nat -> R) (g : nat -> bool) (m : list bool) (T : nat)
  (v : R) :
  (∀ t, (t < T)%nat -> m !! t = Some (g t)) ->
  length m = T ->
  zip_with (fill v) (f <$> seq 0 T) m
  = (fun t => fill v (f t) (g t)) <$> seq 0 T.
Proof.
  intros Hm Hlen. apply list_eq. intros t.
  rewrite lookup_zip_with, !list_lookup_fmap.
  destruct (decide (t < T)%nat) as [Ht|Ht].
  - rewrite lookup_seq_lt by done. simpl. by rewrite Hm.
  - by rewrite lookup_seq_ge by lia.
Qed.

Lemma posteriors_between_elem logits i j first stop T p :
  p ∈ posteriors_between logits i j first stop T
  ↔ ∃ t, p = posterior logits i t j ∧ (t < T)%nat
         ∧ (first ≤ Z.of_nat t < stop)%Z.
Proof.
  unfold posteriors_between. rewrite list_elem_of_fmap.
  split; intros (t & -> & Ht); exists t; split; try done.
  - apply list_elem_of_filter in Ht as [Hr Ht].
    apply elem_of_seq in Ht. split; [lia | done].
  - apply list_elem_of_filter. split; [tauto|]. apply elem_of_seq. lia.
Qed.

Section Terms.

Variables (logits : Tensor3) (lengths : list Z) (B T D : nat).
Hypothesis Hok : batch_ok logits lengths B T D.
Variables (i j : nat) (l : Z).
Hypothesis Hi : (i < B)%nat.
Hypothesis Hj : (j < D)%nat.
Hypothesis Hl : lengths !! i = Some l.

#[local] Open Scope R_scope.

Lemma batch_ok_column :
  column logits i j = Ok ((fun t => posterior logits i t j) <$> seq 0 T).
Proof.
  destruct Hok as (HB & Hr & _). apply (column_ok _ T D); [done | lia | done].
Qed.

Lemma batch_ok_mask_row :
  index (padding_mask lengths) i
  = Ok ((fun t : nat => bool_decide (l ≤ Z.of_nat t)%Z) <$> seq 0 T).
Proof.
  destruct Hok as (_ & _ & _ & _ & _ & _ & HT).
  apply index_ok. by apply padding_mask_row.
Qed.

Lemma batch_ok_length : (0 < l ≤ Z.of_nat T)%Z.
Proof.
  destruct Hok as (_ & _ & _ & _ & _ & Hr & _).
  rewrite Forall_lookup in Hr. by apply (Hr i).
Qed.

(** The keyword branch takes the greatest posterior among the frames
    from [min_duration] on that are not padding. *)
Lemma keyword_term_value (min_duration : Z) (M : R) :
  (0 ≤ min_duration)%Z ->
  tmax (posteriors_between logits i j min_duration l T) = Ok M ->
  keyword_term logits (padding_mask lengths) min_duration i j
  = Ok (- ln (clamp eps 1 M)).
Proof.
  intros Hmd [HM Hub]%tmax_spec. unfold keyword_term.
  rewrite batch_ok_column, batch_ok_mask_row. simpl.
  set (row := (fun t : nat => bool_decide (l ≤ Z.of_nat t)%Z) <$> seq 0 T).
  set (g := fun t : nat =>
              bool_decide (Z.of_nat t < min_duration)%Z
              || bool_decide (l ≤ Z.of_nat t)%Z).
  assert (Hrow : length row = T)
    by (unfold row; by rewrite length_fmap, length_seq).
  rewrite masked_fill_ok
    by (by rewrite set_prefix_true_length, length_fmap, length_seq).
  simpl.
  rewrite (masked_column _ g).
  2:{ intros t Ht. apply set_prefix_true_lookup; [done|].
      unfold row. rewrite list_lookup_fmap, lookup_seq_lt by done. done. }
  2:{ by rewrite set_prefix_true_length. }
  assert (Hmax : tmax (map (clamp eps 1)
                   ((fun t => fill 0 (posterior logits i t j) (g t))
                      <$> seq 0 T)) = Ok (clamp eps 1 M)).
  { apply tmax_spec. split.
    - apply posteriors_between_elem in HM as (t & -> & Ht & Hr).
      apply (list_elem_of_fmap_2' _ _ (posterior logits i t j)); [|done].
      apply (list_elem_of_fmap_2' _ _ t); [apply elem_of_seq; lia|].
      unfold g, fill.
      rewrite !bool_decide_eq_false_2 by lia. done.
    - intros x (y & -> & (t & -> & Ht%elem_of_seq)%list_elem_of_fmap)
        %list_elem_of_fmap.
      unfold g, fill.
      destruct (bool_decide (Z.of_nat t < min_duration)%Z) eqn:E1;
        [|destruct (bool_decide (l ≤ Z.of_nat t)%Z) eqn:E2]; simpl.
      + rewrite clamp_floor by (pose proof eps_range; lra).
        apply clamp_bounds.
      + rewrite clamp_floor by (pose proof eps_range; lra).
        apply clamp_bounds.
      + apply clamp_mono, Hub, posteriors_between_elem.
        apply bool_decide_eq_false in E1, E2.
        exists t. split; [done|]. lia. }
  rewrite Hmax. done.
Qed.

(** The other branch takes one minus the greatest posterior among the
    frames that are not padding. *)
Lemma filler_term_value (M : R) :
  tmax (posteriors_between logits i j 0 l T) = Ok M ->
  filler_term logits (padding_mask lengths) i j
  = Ok (- ln (clamp eps 1 (1 - M))).
Proof.
  intros [HM Hub]%tmax_spec. unfold filler_term.
  rewrite batch_ok_column. simpl. rewrite batch_ok_mask_row. simpl.
  set (g := fun t : nat => bool_decide (l ≤ Z.of_nat t)%Z).
  rewrite masked_fill_ok by (by rewrite ?length_map, ?length_fmap).
  simpl.
  change (map (fun p => 1 - p)
            ((fun t => posterior logits i t j) <$> seq 0 T))
    with ((fun p => 1 - p) <$>
            ((fun t => posterior logits i t j) <$> seq 0 T)).
  rewrite <- list_fmap_compose.
  rewrite (masked_column _ g).
  2:{ intros t Ht. rewrite list_lookup_fmap, lookup_seq_lt by done. done. }
  2:{ by rewrite length_fmap, length_seq. }
  assert (Hmin : tmin (map (clamp eps 1)
                   ((fun t => fill 1 (((fun p => 1 - p) ∘
                        (fun t => posterior logits i t j)) t) (g t))
                      <$> seq 0 T)) = Ok (clamp eps 1 (1 - M))).
  { apply tmin_spec. split.
    - apply posteriors_between_elem in HM as (t & -> & Ht & Hr).
      apply (list_elem_of_fmap_2' _ _ (1 - posterior logits i t j)); [|done].
      apply (list_elem_of_fmap_2' _ _ t); [apply elem_of_seq; lia|].
      unfold g, fill. rewrite bool_decide_eq_false_2 by lia. done.
    - intros x (y & -> & (t & -> & Ht%elem_of_seq)%list_elem_of_fmap)
        %list_elem_of_fmap.
      unfold g, fill.
      destruct (bool_decide (l ≤ Z.of_nat t)%Z) eqn:E; simpl.
      + rewrite (clamp_ceiling 1) by lra. apply clamp_bounds.
      + apply clamp_mono. apply bool_decide_eq_false in E.
        assert (posterior logits i t j <= M); [|lra].
        apply Hub, posteriors_between_elem. exists t. split; [done|]. lia. }
  rewrite Hmin. done.
Qed.

End Terms.

#[local] Open Scope R_scope.

(** *** The maximum over time and over keywords *)

Lemma argmax_from_spec (rest : list R) (best : R) (bi i : nat) :
  let r := argmax_from best bi i rest in
  r.1 = foldl Rmax best rest
  ∧ ((r.2 = bi ∧ r.1 = best) ∨ ∃ k, r.2 = (i + k)%nat ∧ rest !! k = Some r.1).
Proof.
  revert best bi i. induction rest as [|y rest IH]; intros best bi i; simpl.
  - split; [done | by left].
  - destruct (Rlt_dec best y) as [Hlt|Hge].
    + rewrite (Rmax_right best y) by lra.
      destruct (IH y i (S i)) as [H1 H2]. split; [done|]. right.
      destruct H2 as [[H2 H3] | (k & H2 & H3)].
      * exists 0%nat. simpl. split; [lia | by rewrite H3].
      * exists (S k). simpl. split; [lia | done].
    + rewrite (Rmax_left best y) by lra.
      destruct (IH best bi (S i)) as [H1 H2]. split; [done|].
      destruct H2 as [[H2 H3] | (k & H2 & H3)]; [by left | right].
      exists (S k). simpl. split; [lia | done].
Qed.

(** [x.max(0)] returns the greatest entry of the vector and a position
    that holds it. *)
Lemma tmax_index_spec (row : list R) :
  row ≠ [] ->
  ∃ M idx, tmax_index row = Ok (M, idx) ∧ tmax row = Ok M
           ∧ row !! idx = Some M.
Proof.
  destruct row as [|a rest]; [done|]. intros _. simpl.
  pose proof (argmax_from_spec rest a 0 1) as [H1 H2]. simpl in H1, H2.
  destruct (argmax_from a 0 1 rest) as [M idx]. simpl in *.
  exists M, idx. split; [done|]. split; [by rewrite H1|].
  destruct H2 as [[-> ->] | (k & -> & Hk)]; done.
Qed.

Lemma foldl_zip_Rmax_length (rest : list (list R)) (frame : list R) (D : nat) :
  length frame = D -> Forall (fun f => length f = D) rest ->
  length (foldl (zip_with Rmax) frame rest) = D.
Proof.
  revert frame. induction rest as [|f rest IH]; intros frame Hf Hr; simpl;
    [done|].
  apply Forall_cons in Hr as [Hf' Hr].
  apply IH; [|done]. rewrite length_zip_with. lia.
Qed.

Lemma foldl_zip_Rmax_lookup (rest : list (list R)) (frame : list R) (j : nat)
  (x : R) :
  frame !! j = Some x ->
  Forall (fun f => (j < length f)%nat) rest ->
  foldl (zip_with Rmax) frame rest !! j
  = Some (foldl Rmax x ((fun f => default 0 (f !! j)) <$> rest)).
Proof.
  revert frame x. induction rest as [|f rest IH]; intros frame x Hx Hr; simpl;
    [done|].
  apply Forall_cons in Hr as [Hf Hr].
  destruct (lookup_lt_is_Some_2 f j Hf) as [y Hy].
  rewrite (IH _ (Rmax x y)); [by rewrite Hy | | done].
  by rewrite lookup_zip_with, Hx, Hy.
Qed.

(** The maximum over time of one utterance, keyword by keyword. *)
Lemma max_over_time_spec (utt : list (list R)) (T D : nat) :
  length utt = T -> (1 ≤ T)%nat -> Forall (fun f => length f = D) utt ->
  ∃ row, max_over_time utt = Ok row ∧ length row = D
         ∧ ∀ j, (j < D)%nat ->
             ∃ x, row !! j = Some x
                  ∧ tmax ((fun f => default 0 (f !! j)) <$> utt) = Ok x.
Proof.
  intros HT H1 HD. destruct utt as [|frame rest]; [simpl in HT; lia|].
  apply Forall_cons in HD as [Hf Hr]. simpl.
  eexists. split; [done|]. split; [by apply foldl_zip_Rmax_length|].
  intros j Hj.
  destruct (lookup_lt_is_Some_2 frame j ltac:(lia)) as [x Hx].
  eexists. split.
  - apply foldl_zip_Rmax_lookup; [done|].
    eapply Forall_impl; [exact Hr|]. simpl. intros; lia.
  - by rewrite Hx.
Qed.

#[local] Close Scope R_scope.

(** *** Well-formed batches *)

Lemma batch_ok_time logits lengths B T D :
  batch_ok logits lengths B T D -> (1 ≤ T)%nat.
Proof.
  intros (_ & _ & HB & _ & Hlen & Hr & _).
  destruct lengths as [|l ls]; [simpl in Hlen; lia|].
  apply Forall_cons in Hr as [Hl _]. lia.
Qed.

Lemma batch_ok_size2 logits lengths B T D :
  batch_ok logits lengths B T D -> size2 logits = D.
Proof.
  intros Hok. pose proof (batch_ok_time _ _ _ _ _ Hok) as HT.
  destruct Hok as (HB & Hr & H1 & _).
  destruct logits as [|utt rest]; [simpl in HB; lia|].
  apply Forall_cons in Hr as [[Hu Hf] _].
  destruct utt as [|frame utt]; [simpl in Hu; lia|].
  by apply Forall_cons in Hf as [Hf _].
Qed.

Lemma batch_ok_lengths logits lengths B T D i :
  batch_ok logits lengths B T D -> (i < B)%nat -> ∃ l, lengths !! i = Some l.
Proof.
  intros (_ & _ & _ & _ & Hlen & _) Hi.
  apply lookup_lt_is_Some_2. lia.
Qed.

Section TermsTotal.

Variables (logits : Tensor3) (lengths : list Z) (B T D : nat).
Hypothesis Hok : batch_ok logits lengths B T D.
Variables (i j : nat) (l : Z).
Hypothesis Hi : (i < B)%nat.
Hypothesis Hj : (j < D)%nat.
Hypothesis Hl : lengths !! i = Some l.

#[local] Open Scope R_scope.

Lemma valid_posteriors_max :
  ∃ M, tmax (posteriors_between logits i j 0 l T) = Ok M.
Proof.
  apply tmax_nonempty. intros Hnil.
  pose proof (batch_ok_length _ _ _ _ _ Hok i l Hl) as Hr.
  pose proof (batch_ok_time _ _ _ _ _ Hok) as HT.
  assert (H : posterior logits i 0 j ∈ posteriors_between logits i j 0 l T).
  { apply posteriors_between_elem. exists 0%nat. split; [done|]. lia. }
  rewrite Hnil in H. by apply elem_of_nil in H.
Qed.

Lemma filler_term_ok :
  ∃ v, filler_term logits (padding_mask lengths) i j = Ok v.
Proof.
  destruct valid_posteriors_max as [M HM].
  eexists. eapply filler_term_value; eauto.
Qed.

Lemma keyword_term_ok (min_duration : Z) :
  ∃ v, keyword_term logits (padding_mask lengths) min_duration i j = Ok v.
Proof.
  unfold keyword_term.
  rewrite (batch_ok_column _ _ B T D Hok), (batch_ok_mask_row _ _ B T D Hok i l)
    by done.
  simpl.
  rewrite masked_fill_ok
    by (by rewrite set_prefix_true_length, !length_fmap).
  simpl.
  pose proof (batch_ok_time _ _ _ _ _ Hok) as HT.
  edestruct (tmax_nonempty) as [M ->]; [|simpl; eauto].
  intros Hnil. apply (f_equal length) in Hnil.
  rewrite length_map, length_zip_with, set_prefix_true_length,
    !length_fmap, length_seq in Hnil.
  simpl in Hnil. lia.
Qed.

(** When [min_duration] reaches the length of the utterance, every frame
    is masked and the maximum is the floor of the clamp. *)
Lemma keyword_term_all_excluded (min_duration : Z) :
  (l ≤ min_duration)%Z ->
  keyword_term logits (padding_mask lengths) min_duration i j
  = Ok (- ln eps).
Proof.
  intros Hmd. unfold keyword_term.
  pose proof (batch_ok_length _ _ _ _ _ Hok i l Hl) as Hr.
  pose proof (batch_ok_time _ _ _ _ _ Hok) as HT.
  rewrite (batch_ok_column _ _ B T D Hok), (batch_ok_mask_row _ _ B T D Hok i l)
    by done.
  simpl.
  rewrite masked_fill_ok
    by (by rewrite set_prefix_true_length, !length_fmap).
  simpl.
  rewrite (masked_column _ (fun _ => true)).
  2:{ intros t Ht.
      rewrite (set_prefix_true_lookup _ _ _ (bool_decide (l ≤ Z.of_nat t)%Z));
        [|lia|by rewrite list_lookup_fmap, lookup_seq_lt by done].
      f_equal. destruct (decide (Z.of_nat t < min_duration)%Z).
      - by rewrite bool_decide_eq_true_2.
      - rewrite bool_decide_eq_false_2 by done.
        rewrite bool_decide_eq_true_2 by lia. done. }
  2:{ by rewrite set_prefix_true_length, length_fmap, length_seq. }
  assert (Hmax : tmax (map (clamp eps 1)
            ((fun t => fill 0 (posterior logits i t j) true) <$> seq 0 T))
          = Ok eps).
  { apply tmax_spec. split.
    - apply (list_elem_of_fmap_2' _ _ 0); [|].
      + apply (list_elem_of_fmap_2' _ _ 0%nat); [apply elem_of_seq; lia|done].
      + symmetry. apply clamp_floor. pose proof eps_range. lra.
    - intros x (y & -> & (t & -> & _)%list_elem_of_fmap)%list_elem_of_fmap.
      simpl. rewrite clamp_floor; [lra|]. pose proof eps_range. lra. }
  by rewrite Hmax.
Qed.

Lemma loss_term_ok (target : list Z) (min_duration : Z) :
  (i < length target)%nat ->
  ∃ v, loss_term logits (padding_mask lengths) target min_duration i j = Ok v.
Proof.
  intros Ht. unfold loss_term.
  destruct (lookup_lt_is_Some_2 target i Ht) as [t Htt].
  rewrite (proj2 (index_ok _ _ _) Htt). simpl.
  destruct (t =? Z.of_nat j)%Z; [apply keyword_term_ok | apply filler_term_ok].
Qed.

End TermsTotal.

(** *** The two loops *)

(** A loop whose body adds [w x] to the accumulator adds up the [w x]. *)
Lemma for_each_Rplus {A} (body : A -> R -> result R) (w : A -> R)
  (xs : list A) (s : R) :
  (∀ x a, x ∈ xs -> body x a = Ok (a + w x)%R) ->
  for_each body xs s = Ok (s + foldr Rplus 0%R (w <$> xs))%R.
Proof.
  revert s. induction xs as [|x xs IH]; intros s Hb; csimpl.
  - f_equal. lra.
  - rewrite Hb by left. simpl. rewrite IH.
    + f_equal. lra.
    + intros y a Hy. apply Hb. by right.
Qed.

Lemma for_each_plus {A} (body : A -> nat -> result nat) (w : A -> nat)
  (xs : list A) (s : nat) :
  (∀ x a, x ∈ xs -> body x a = Ok (a + w x)) ->
  for_each body xs s = Ok (s + sum_list (w <$> xs)).
Proof.
  revert s. induction xs as [|x xs IH]; intros s Hb; csimpl.
  - f_equal. lia.
  - rewrite Hb by left. simpl. rewrite IH.
    + f_equal. lia.
    + intros y a Hy. apply Hb. by right.
Qed.

Section Batch.

Variables (logits : Tensor3) (target lengths : list Z) (B T D : nat).
Hypothesis Hok : batch_ok logits lengths B T D.
Hypothesis Htarget : (B ≤ length target)%nat.
Variable min_duration : Z.

#[local] Open Scope R_scope.

Lemma batch_loss_terms :
  ∃ c : nat -> nat -> R,
    (∀ i j, (i < B)%nat -> (j < D)%nat ->
            loss_term logits (padding_mask lengths) target min_duration i j
            = Ok (c i j))
    ∧ batch_loss logits (padding_mask lengths) target min_duration
      = Ok (Rsum (fun i => Rsum (c i) D) B / INR B).
Proof.
  set (c := fun i j =>
    value_of (loss_term logits (padding_mask lengths) target min_duration i j)).
  assert (Hc : ∀ i j, (i < B)%nat -> (j < D)%nat ->
            loss_term logits (padding_mask lengths) target min_duration i j
            = Ok (c i j)).
  { intros i j Hi Hj.
    destruct (batch_ok_lengths _ _ _ _ _ i Hok Hi) as [l Hl].
    destruct (loss_term_ok _ _ _ _ _ Hok i j l Hi Hj Hl target min_duration)
      as [v Hv]; [lia|].
    unfold c. by rewrite Hv. }
  exists c. split; [exact Hc|].
  unfold batch_loss. rewrite (batch_ok_size2 _ _ _ _ _ Hok).
  assert (HB : size0 logits = B) by (by destruct Hok).
  rewrite HB.
  rewrite (for_each_Rplus _ (fun i => Rsum (c i) D)).
  - simpl. destruct (Nat.eqb_spec B 0) as [H0|_].
    + destruct Hok as (_ & _ & ? & _). lia.
    + unfold Rsum. f_equal. lra.
  - intros i a Hi%elem_of_seq.
    rewrite (for_each_Rplus _ (c i)); [done|].
    intros j a' Hj%elem_of_seq. rewrite Hc by lia. done.
Qed.

End Batch.

(** *** The second pass *)

Section Accuracy.

Variables (logits : Tensor3) (lengths : list Z) (B T D : nat).
Hypothesis Hok : batch_ok logits lengths B T D.

#[local] Open Scope R_scope.

Lemma masked_fill_frames_ok :
  masked_fill_frames logits (padding_mask lengths) 0
  = Ok (zip_with zero_padding logits (padding_mask lengths)).
Proof.
  destruct Hok as (HB & Hr & _ & _ & Hlen & _ & HT).
  unfold masked_fill_frames. apply bcast2_ok.
  - rewrite padding_mask_length. lia.
  - intros k utt row Hu Hrow. apply bcast2_ok; [|done].
    destruct (rectangular_lookup _ _ _ _ _ Hr Hu) as [-> _].
    destruct (lookup_lt_is_Some_2 lengths k) as [l Hl].
    { apply lookup_lt_Some in Hu. lia. }
    rewrite (padding_mask_row _ T k l HT Hl) in Hrow.
    injection Hrow as <-. by rewrite length_fmap, length_seq.
Qed.

Lemma zero_padding_lookup (i : nat) (l : Z) (utt : list (list R)) :
  logits !! i = Some utt -> lengths !! i = Some l ->
  zip_with zero_padding logits (padding_mask lengths) !! i
  = Some (zero_padding utt
            ((fun t : nat => bool_decide (l ≤ Z.of_nat t)%Z) <$> seq 0 T)).
Proof.
  destruct Hok as (_ & _ & _ & _ & _ & _ & HT). intros Hu Hl.
  by rewrite lookup_zip_with, Hu, (padding_mask_row _ T i l HT Hl).
Qed.

Lemma zero_padding_shape (l : Z) (utt : list (list R)) :
  length utt = T -> Forall (fun frame => length frame = D) utt ->
  let m := zero_padding utt
             ((fun t : nat => bool_decide (l ≤ Z.of_nat t)%Z) <$> seq 0 T) in
  length m = T ∧ Forall (fun frame => length frame = D) m.
Proof.
  intros Hu Hf. simpl. unfold zero_padding. split.
  - rewrite length_zip_with, length_fmap, length_seq. lia.
  - apply Forall_lookup. intros t frame Hfr.
    apply lookup_zip_with_Some in Hfr as (fr & b & -> & Hfr & _).
    rewrite length_map. rewrite Forall_lookup in Hf. by apply (Hf t).
Qed.

Lemma zero_padding_column (i j : nat) (l : Z) (utt : list (list R)) :
  logits !! i = Some utt -> length utt = T ->
  (fun f => default 0 (f !! j))
    <$> zero_padding utt
          ((fun t : nat => bool_decide (l ≤ Z.of_nat t)%Z) <$> seq 0 T)
  = (fun t => masked_posterior logits l i t j) <$> seq 0 T.
Proof.
  intros Hu HT. apply list_eq. intros t.
  unfold zero_padding. rewrite !list_lookup_fmap, lookup_zip_with.
  rewrite list_lookup_fmap.
  destruct (decide (t < T)%nat) as [Ht|Ht].
  - rewrite lookup_seq_lt by done.
    destruct (lookup_lt_is_Some_2 utt t ltac:(lia)) as [frame Hfr].
    rewrite Hfr. simpl. f_equal.
    unfold masked_posterior, posterior. rewrite Hu, Hfr.
    change (map (fun e => fill 0 e (bool_decide (l ≤ Z.of_nat t)%Z)) frame)
      with ((fun e => fill 0 e (bool_decide (l ≤ Z.of_nat t)%Z)) <$> frame).
    rewrite list_lookup_fmap.
    destruct (frame !! j); simpl; [done|].
    unfold fill. by destruct (bool_decide _).
  - rewrite lookup_seq_ge by lia. simpl.
    rewrite (lookup_ge_None_2 utt) by lia. done.
Qed.

(** The second pass finds, for each utterance, the greatest posterior
    over its frames and keywords once the padding is zeroed. *)
Lemma masked_max_logits_spec :
  ∃ max_logits,
    masked_max_logits logits (padding_mask lengths) = Ok max_logits
    ∧ ∀ i l, (i < B)%nat -> lengths !! i = Some l ->
        ∃ M idx,
          utterance_pred max_logits i = Ok (M, idx)
          ∧ (idx < D)%nat
          ∧ (∃ t, (t < T)%nat ∧ M = masked_posterior logits l i t idx)
          ∧ ∀ t j, (t < T)%nat -> (j < D)%nat ->
              masked_posterior logits l i t j <= M.
Proof.
  pose proof (batch_ok_time _ _ _ _ _ Hok) as HT1.
  pose proof Hok as (HB & Hr & _ & HD1 & Hlen & _ & HT).
  unfold masked_max_logits. rewrite masked_fill_frames_ok. simpl.
  set (masked := zip_with zero_padding logits (padding_mask lengths)).
  assert (Hm : ∀ i l, (i < B)%nat -> lengths !! i = Some l ->
            ∃ utt, logits !! i = Some utt ∧ length utt = T
                   ∧ Forall (fun frame => length frame = D) utt
                   ∧ masked !! i = Some (zero_padding utt
            ((fun t : nat => bool_decide (l ≤ Z.of_nat t)%Z) <$> seq 0 T))).
  { intros i l Hi Hl.
    destruct (lookup_lt_is_Some_2 logits i ltac:(lia)) as [utt Hu].
    destruct (rectangular_lookup _ _ _ _ _ Hr Hu) as [HuT HuD].
    exists utt. split_and!; try done. by apply zero_padding_lookup. }
  rewrite (traverse_ok _ columnwise_max).
  2:{ intros m (i & Hmi)%list_elem_of_lookup.
      pose proof (lookup_lt_Some _ _ _ Hmi) as Hi.
      unfold masked in Hi.
      rewrite length_zip_with, padding_mask_length in Hi.
      destruct (lookup_lt_is_Some_2 lengths i ltac:(lia)) as [l Hl].
      destruct (Hm i l ltac:(lia) Hl) as (utt & Hu & HuT & HuD & Hmi').
      rewrite Hmi in Hmi'. injection Hmi' as ->.
      destruct (zero_padding_shape l utt HuT HuD) as [Hlen' _].
      destruct (zero_padding utt _) as [|fr rest]; [simpl in Hlen'; lia|].
      done. }
  eexists. split; [done|].
  intros i l Hi Hl.
  destruct (Hm i l Hi Hl) as (utt & Hu & HuT & HuD & Hmi).
  destruct (zero_padding_shape l utt HuT HuD) as [Hlen' HD'].
  destruct (max_over_time_spec _ T D Hlen' HT1 HD')
    as (row & Hrow & Hrlen & Hcols).
  unfold utterance_pred.
  assert (Hri : index (columnwise_max <$> masked) i = Ok row).
  { apply index_ok. rewrite list_lookup_fmap, Hmi. simpl. f_equal.
    destruct (zero_padding utt _) as [|fr rest]; [simpl in Hlen'; lia|].
    simpl in Hrow. by injection Hrow. }
  rewrite Hri. simpl.
  destruct (tmax_index_spec row)
    as (M & idx & Hidx & [HMin HMub]%tmax_spec & HM).
  { intros ->. simpl in Hrlen. lia. }
  exists M, idx. split; [done|].
  pose proof (lookup_lt_Some _ _ _ HM) as Hidx_lt. split; [lia|]. split.
  - destruct (Hcols idx ltac:(lia)) as (x & Hx & [Hxin _]%tmax_spec).
    rewrite HM in Hx. injection Hx as <-.
    rewrite (zero_padding_column i idx l utt Hu HuT) in Hxin.
    apply list_elem_of_fmap in Hxin as (t & -> & Ht%elem_of_seq).
    exists t. split; [lia | done].
  - intros t j Ht Hj.
    destruct (Hcols j Hj) as (x & Hx & [_ Hxub]%tmax_spec).
    rewrite (zero_padding_column i j l utt Hu HuT) in Hxub.
    transitivity x.
    + apply Hxub. apply (list_elem_of_fmap_2' _ _ t); [|done].
      apply elem_of_seq. lia.
    + apply HMub. by apply list_elem_of_lookup_2 with j.
Qed.

End Accuracy.

(** *** Counting the correct predictions *)

Lemma correct_incr_half (idx : nat) (target : list Z) (i : nat) :
  correct_incr 0.5 idx target i = Ok 0%nat.
Proof.
  unfold correct_incr.
  destruct (Rlt_dec 0.5 0.5) as [H|_]; [lra|].
  destruct (Rlt_dec 0.5 0.5) as [H|_]; [lra|]. done.
Qed.

Lemma correct_incr_ok (max_p : R) (idx : nat) (target : list Z) (i : nat) :
  (i < length target)%nat ->
  ∃ n, correct_incr max_p idx target i = Ok n ∧ (n ≤ 1)%nat.
Proof.
  intros Hi. destruct (lookup_lt_is_Some_2 target i Hi) as [t Ht].
  unfold correct_incr. rewrite (proj2 (index_ok _ _ _) Ht).
  destruct (Rlt_dec 0.5 max_p) as [H1|H1];
    destruct (Rlt_dec max_p 0.5) as [H2|H2]; simpl; try lra.
  - destruct (Z.of_nat idx =? t)%Z; eexists; (split; [done | lia]).
  - destruct (t <? 0)%Z; eexists; (split; [done | lia]).
  - eexists; (split; [done | lia]).
Qed.

Lemma for_each_ext {A S} (body body' : A -> S -> result S) (xs : list A)
  (s : S) :
  (∀ x a, x ∈ xs -> body x a = body' x a) ->
  for_each body xs s = for_each body' xs s.
Proof.
  revert s. induction xs as [|x xs IH]; intros s Hb; simpl; [done|].
  rewrite Hb by left. destruct (body' x s) as [s'|e]; simpl; [|done].
  apply IH. intros y a Hy. apply Hb. by right.
Qed.

Lemma index_app_l {A} (l extra : list A) (i : nat) :
  (i < length l)%nat -> index (l ++ extra) i = index l i.
Proof. intros H. unfold index. by rewrite lookup_app_l. Qed.

(** Entries of [target] past the batch are never read. *)
Lemma max_polling_loss_target_prefix logits target extra lengths min_duration :
  (size0 logits ≤ length target)%nat ->
  max_polling_loss logits (target ++ extra) lengths min_duration
  = max_polling_loss logits target lengths min_duration.
Proof.
  intros Hlen. unfold max_polling_loss.
  assert (Hl : batch_loss logits (padding_mask lengths) (target ++ extra)
                 min_duration
               = batch_loss logits (padding_mask lengths) target min_duration).
  { unfold batch_loss. f_equal.
    apply for_each_ext. intros i a Hi%elem_of_seq.
    apply for_each_ext. intros j a' _.
    unfold loss_term. rewrite index_app_l by lia. done. }
  assert (Ha : batch_accuracy logits (padding_mask lengths) (target ++ extra)
               = batch_accuracy logits (padding_mask lengths) target).
  { unfold batch_accuracy.
    destruct (masked_max_logits logits (padding_mask lengths)) as [ml|e];
      [simpl | done].
    f_equal. apply for_each_ext. intros i a Hi%elem_of_seq.
    destruct (utterance_pred ml i) as [[max_p idx]|e]; [simpl | done].
    unfold correct_incr. rewrite index_app_l by lia. done. }
  by rewrite Hl, Ha.
Qed.

Section Evaluator.

Variables (logits : Tensor3) (target lengths : list Z) (B T D : nat).
Hypothesis Hok : batch_ok logits lengths B T D.
Hypothesis Htarget : (B ≤ length target)%nat.

#[local] Open Scope R_scope.

Lemma batch_accuracy_counts :
  ∃ (max_logits : Tensor2) (n : nat -> nat),
    masked_max_logits logits (padding_mask lengths) = Ok max_logits
    ∧ (∀ i, (i < B)%nat ->
         ∃ M idx, utterance_pred max_logits i = Ok (M, idx)
                  ∧ correct_incr M idx target i = Ok (n i)
                  ∧ (n i ≤ 1)%nat)
    ∧ batch_accuracy logits (padding_mask lengths) target
      = Ok (INR (sum_list (n <$> seq 0 B)) / INR B).
Proof.
  destruct (masked_max_logits_spec _ _ _ _ _ Hok) as (ml & Hml & Hpred).
  set (n := fun i =>
    match utterance_pred ml i with
    | Ok (M, idx) =>
        match correct_incr M idx target i with
        | Ok k => k
        | Raise _ => 0%nat
        end
    | Raise _ => 0%nat
    end).
  exists ml, n. split; [done|].
  assert (Hn : ∀ i, (i < B)%nat ->
         ∃ M idx, utterance_pred ml i = Ok (M, idx)
                  ∧ correct_incr M idx target i = Ok (n i)
                  ∧ (n i ≤ 1)%nat).
  { intros i Hi.
    destruct (batch_ok_lengths _ _ _ _ _ i Hok Hi) as [l Hl].
    destruct (Hpred i l Hi Hl) as (M & idx & HM & _).
    destruct (correct_incr_ok M idx target i ltac:(lia)) as (k & Hk & Hk1).
    exists M, idx. unfold n. rewrite HM, Hk. done. }
  split; [exact Hn|].
  unfold batch_accuracy. rewrite Hml. simpl.
  assert (HB : size0 logits = B) by (by destruct Hok).
  rewrite HB. rewrite (for_each_plus _ n).
  - simpl. destruct (Nat.eqb_spec B 0) as [H0|_]; [|done].
    destruct Hok as (_ & _ & ? & _). lia.
  - intros i a Hi%elem_of_seq.
    destruct (Hn i ltac:(lia)) as (M & idx & HM & Hc & _).
    rewrite HM. simpl. rewrite Hc. done.
Qed.

Lemma max_polling_loss_ok (min_duration : Z) :
  ∃ loss acc,
    max_polling_loss logits target lengths min_duration = Ok (loss, acc).
Proof.
  destruct (batch_loss_terms _ _ _ _ _ _ Hok Htarget min_duration)
    as (c & _ & Hloss).
  destruct batch_accuracy_counts as (ml & n & _ & _ & Hacc).
  unfold max_polling_loss. rewrite Hloss, Hacc. simpl. eauto.
Qed.

End Evaluator.

(** *** The sample batches *)

Lemma sample_batch_ok : batch_ok sample_logits sample_lengths 2 2 2.
Proof.
  unfold batch_ok, rectangular, sample_logits, sample_lengths.
  split_and!; try done; try lia; repeat constructor; simpl; lia.
Qed.

Lemma sample_well_formed :
  well_formed sample_logits sample_target sample_lengths 2 2 2.
Proof. split; [exact sample_batch_ok | done]. Qed.

Lemma short_batch_ok : batch_ok short_logits short_lengths 1 1 1.
Proof.
  unfold batch_ok, rectangular, short_logits, short_lengths.
  split_and!; try done; try lia; repeat constructor; simpl; lia.
Qed.

#[local] Open Scope R_scope.

(** The sample batch by hand: utterance 0 is keyword 0 and peaks at 0.9;
    utterance 1 is a filler whose second frame is padding.  Both are
    predicted correctly. *)
Example sample_batch_evaluation :
  max_polling_loss sample_logits sample_target sample_lengths 0
  = Ok ((- ln 0.9 + - ln (1 - 0.2) + - ln (1 - 0.4) + - ln (1 - 0.3)) / 2, 1).
Proof. evaluate_batch. f_equal. f_equal; simpl; lra. Qed.

(** A posterior of exactly 0.5 is counted as wrong for a keyword and for
    a filler alike. *)
Example half_as_keyword :
  max_polling_loss [[[0.5]]] [0%Z] [1%Z] 0 = Ok (- ln 0.5, 0).
Proof. evaluate_batch. f_equal. f_equal; simpl; lra. Qed.

Example half_as_filler :
  max_polling_loss [[[0.5]]] [(-1)%Z] [1%Z] 0 = Ok (- ln (1 - 0.5), 0).
Proof. evaluate_batch. f_equal. f_equal; simpl; lra. Qed.

(** A negative [min_duration] is read as a slice bound: [m[:-1] = True]
    masks every frame but the last. *)
Example negative_min_duration_keeps_last_frame :
  keyword_term sample_logits (padding_mask sample_lengths) (-1) 0 0
  = Ok (- ln 0.3).
Proof. evaluate_batch. reflexivity. Qed.

(** *** The properties of the evaluator *)

(** C1.  For a well-formed batch, a frame count [0 <= min_duration], an
    utterance [i] with [target[i] == j] and at least one frame [t] with
    [min_duration <= t < lengths[i]], the term the loop adds for [(i, j)]
    is [-log(clamp(M, 1e-8, 1))] where [M] is the greatest
    [posteriors[i, t, j]] over those frames; when there is exactly one
    such frame, with posterior [p], the term is
    [-log(clamp(p, 1e-8, 1))]. *)
Theorem keyword_loss_contribution logits target lengths B T D
  (min_duration : Z) (i j : nat) (l : Z) :
  well_formed logits target lengths B T D ->
  (0 ≤ min_duration)%Z ->
  target !! i = Some (Z.of_nat j) ->
  (j < D)%nat ->
  lengths !! i = Some l ->
  (∃ t : nat, (min_duration ≤ Z.of_nat t < l)%Z) ->
  ∃ M, tmax (posteriors_between logits i j min_duration l T) = Ok M
       ∧ loss_term logits (padding_mask lengths) target min_duration i j
         = Ok (- ln (clamp eps 1 M))
       ∧ ∀ p, posteriors_between logits i j min_duration l T = [p] ->
              loss_term logits (padding_mask lengths) target min_duration i j
              = Ok (- ln (clamp eps 1 p)).
Proof.
  intros [Hok Htl] Hmd Ht Hj Hl (t & Hrange).
  assert (Hi : (i < B)%nat) by (apply lookup_lt_Some in Ht; lia).
  pose proof (batch_ok_length _ _ _ _ _ Hok i l Hl) as Hlr.
  destruct (tmax_nonempty (posteriors_between logits i j min_duration l T))
    as [M HM].
  { intros Hnil.
    assert (H : posterior logits i t j
                ∈ posteriors_between logits i j min_duration l T).
    { apply posteriors_between_elem. exists t. split; [done|]. lia. }
    rewrite Hnil in H. by apply elem_of_nil in H. }
  assert (Hterm : loss_term logits (padding_mask lengths) target min_duration i j
                  = Ok (- ln (clamp eps 1 M))).
  { unfold loss_term. rewrite (proj2 (index_ok _ _ _) Ht). simpl.
    rewrite Z.eqb_refl. eapply keyword_term_value; eauto. }
  exists M. split_and!; try done.
  intros p Hp. rewrite Hp in HM. injection HM as <-. done.
Qed.

(** The theorem at the sample batch, utterance 0, keyword 0,
    [min_duration = 1]: frame 1 is the only frame left. *)
Lemma keyword_loss_contribution_witness :
  ∃ M, tmax (posteriors_between sample_logits 0 0 1 2 2) = Ok M
       ∧ loss_term sample_logits (padding_mask sample_lengths) sample_target
           1 0 0
         = Ok (- ln (clamp eps 1 M))
       ∧ ∀ p, posteriors_between sample_logits 0 0 1 2 2 = [p] ->
              loss_term sample_logits (padding_mask sample_lengths)
                sample_target 1 0 0
              = Ok (- ln (clamp eps 1 p)).
Proof.
  apply (keyword_loss_contribution sample_logits sample_target sample_lengths
           2 2 2 1 0 0 2);
    [exact sample_well_formed | lia | reflexivity | lia | reflexivity |].
  exists 1%nat. lia.
Defined.

(** C2.  For a well-formed batch (every length is at least 1) and an
    utterance [i] with [target[i] != j], fillers included, the term the
    loop adds for [(i, j)] is [-log(clamp(1 - M, 1e-8, 1))] where [M] is the
    greatest [posteriors[i, t, j]] over the frames [t < lengths[i]]; the
    least [1 - posteriors[i, t, j]] over those frames is [1 - M]. *)
Theorem filler_loss_contribution logits target lengths B T D
  (min_duration : Z) (i j : nat) (t l : Z) :
  well_formed logits target lengths B T D ->
  target !! i = Some t ->
  t ≠ Z.of_nat j ->
  (j < D)%nat ->
  lengths !! i = Some l ->
  ∃ M, tmax (posteriors_between logits i j 0 l T) = Ok M
       ∧ tmin ((fun p => 1 - p) <$> posteriors_between logits i j 0 l T)
         = Ok (1 - M)
       ∧ loss_term logits (padding_mask lengths) target min_duration i j
         = Ok (- ln (clamp eps 1 (1 - M))).
Proof.
  intros [Hok Htl] Ht Hne Hj Hl.
  assert (Hi : (i < B)%nat) by (apply lookup_lt_Some in Ht; lia).
  destruct (valid_posteriors_max _ _ _ _ _ Hok i j l) as [M HM]; [done..|].
  exists M. split_and!; try done.
  - apply tmax_spec in HM as [HMin HMub]. apply tmin_spec. split.
    + by apply list_elem_of_fmap_2.
    + intros x (p & -> & Hp)%list_elem_of_fmap. specialize (HMub p Hp). lra.
  - unfold loss_term. rewrite (proj2 (index_ok _ _ _) Ht). simpl.
    rewrite (proj2 (Z.eqb_neq _ _) Hne).
    eapply filler_term_value; eauto.
Qed.

(** The theorem at the sample batch, the filler utterance 1, keyword 0. *)
Lemma filler_loss_contribution_witness :
  ∃ M, tmax (posteriors_between sample_logits 1 0 0 1 2) = Ok M
       ∧ tmin ((fun p => 1 - p) <$> posteriors_between sample_logits 1 0 0 1 2)
         = Ok (1 - M)
       ∧ loss_term sample_logits (padding_mask sample_lengths) sample_target
           0 1 0
         = Ok (- ln (clamp eps 1 (1 - M))).
Proof.
  apply (filler_loss_contribution sample_logits sample_target sample_lengths
           2 2 2 0 1 0 (-1) 1);
    [exact sample_well_formed | reflexivity | lia | lia | reflexivity].
Defined.

(** C4.  For a well-formed batch of [B] utterances and [D] keywords, the
    evaluator returns, and the loss it returns is the sum over the [B]
    utterances and the [D] keywords of the terms of the loop, divided by
    [B] and by nothing else. *)
Theorem loss_sums_keywords_and_averages_utterances logits target lengths B T D
  (min_duration : Z) :
  well_formed logits target lengths B T D ->
  ∃ (c : nat -> nat -> R) (acc : R),
    (∀ i j, (i < B)%nat -> (j < D)%nat ->
            loss_term logits (padding_mask lengths) target min_duration i j
            = Ok (c i j))
    ∧ max_polling_loss logits target lengths min_duration
      = Ok (Rsum (fun i => Rsum (fun j => c i j) D) B / INR B, acc).
Proof.
  intros [Hok Htl].
  destruct (batch_loss_terms _ target _ _ _ _ Hok ltac:(lia) min_duration)
    as (c & Hc & Hloss).
  destruct (batch_accuracy_counts _ target _ _ _ _ Hok ltac:(lia))
    as (ml & n & _ & _ & Hacc).
  exists c. eexists. split; [exact Hc|].
  unfold max_polling_loss. rewrite Hloss, Hacc. done.
Qed.

(** The theorem at the sample batch. *)
Lemma loss_sums_keywords_and_averages_utterances_witness :
  ∃ (c : nat -> nat -> R) (acc : R),
    (∀ i j, (i < 2)%nat -> (j < 2)%nat ->
            loss_term sample_logits (padding_mask sample_lengths)
              sample_target 0 i j
            = Ok (c i j))
    ∧ max_polling_loss sample_logits sample_target sample_lengths 0
      = Ok (Rsum (fun i => Rsum (fun j => c i j) 2) 2 / INR 2, acc).
Proof.
  apply (loss_sums_keywords_and_averages_utterances sample_logits
           sample_target sample_lengths 2 2 2 0 sample_well_formed).
Defined.

(** C5.  For a well-formed batch and an utterance [i] with
    [target[i] == j] and [lengths[i] <= min_duration], every frame of the
    column is masked, the term of [(i, j)] is [-log(1e-8)], and the
    evaluator returns without raising. *)
Theorem all_frames_excluded_gives_floor logits target lengths B T D
  (min_duration : Z) (i j : nat) (l : Z) :
  well_formed logits target lengths B T D ->
  target !! i = Some (Z.of_nat j) ->
  (j < D)%nat ->
  lengths !! i = Some l ->
  (l ≤ min_duration)%Z ->
  loss_term logits (padding_mask lengths) target min_duration i j
  = Ok (- ln eps)
  ∧ ∃ loss acc,
      max_polling_loss logits target lengths min_duration = Ok (loss, acc).
Proof.
  intros [Hok Htl] Ht Hj Hl Hmd.
  assert (Hi : (i < B)%nat) by (apply lookup_lt_Some in Ht; lia).
  split.
  - unfold loss_term. rewrite (proj2 (index_ok _ _ _) Ht). simpl.
    rewrite Z.eqb_refl.
    eapply keyword_term_all_excluded; eauto.
  - apply (max_polling_loss_ok _ _ _ B T D Hok). lia.
Qed.

(** The theorem at the sample batch with [min_duration = 5]. *)
Lemma all_frames_excluded_gives_floor_witness :
  loss_term sample_logits (padding_mask sample_lengths) sample_target 5 0 0
  = Ok (- ln eps)
  ∧ ∃ loss acc,
      max_polling_loss sample_logits sample_target sample_lengths 5
      = Ok (loss, acc).
Proof.
  apply (all_frames_excluded_gives_floor sample_logits sample_target
           sample_lengths 2 2 2 5 0 0 2);
    [exact sample_well_formed | reflexivity | lia | reflexivity | lia].
Defined.

(** C6, as the code has it.  For a well-formed input the evaluator raises
    nothing and returns the pair of the loss and the accuracy.  It does not
    compare the shapes of its arguments: entries of [target] past the
    batch are never read, so appending entries to [target] leaves the
    result as it is. *)
Theorem evaluator_checks_no_shapes logits target lengths B T D
  (min_duration : Z) :
  well_formed logits target lengths B T D ->
  (∃ loss acc,
     max_polling_loss logits target lengths min_duration = Ok (loss, acc))
  ∧ ∀ extra,
      max_polling_loss logits (target ++ extra) lengths min_duration
      = max_polling_loss logits target lengths min_duration.
Proof.
  intros [Hok Htl]. split.
  - apply (max_polling_loss_ok _ _ _ B T D Hok). lia.
  - intros extra. apply max_polling_loss_target_prefix.
    destruct Hok as (HB & _). unfold size0. lia.
Qed.

(** The theorem at the sample batch. *)
Lemma evaluator_checks_no_shapes_witness :
  (∃ loss acc,
     max_polling_loss sample_logits sample_target sample_lengths 0
     = Ok (loss, acc))
  ∧ ∀ extra,
      max_polling_loss sample_logits (sample_target ++ extra) sample_lengths 0
      = max_polling_loss sample_logits sample_target sample_lengths 0.
Proof.
  apply (evaluator_checks_no_shapes sample_logits sample_target
           sample_lengths 2 2 2 0 sample_well_formed).
Defined.

(** C6 as stated fails: with one utterance and a target vector of two
    entries the batch dimensions disagree, yet the evaluator returns a
    result and raises no [ShapeMismatchError]. *)
Lemma surplus_target_is_accepted :
  length long_target ≠ size0 short_logits
  ∧ max_polling_loss short_logits long_target short_lengths 0
    = Ok (- ln 0.9, 1)
  ∧ ¬ fails_with "ShapeMismatchError"
        (max_polling_loss short_logits long_target short_lengths 0).
Proof.
  assert (H : max_polling_loss short_logits long_target short_lengths 0
              = Ok (- ln 0.9, 1)).
  { evaluate_batch. f_equal. f_equal; simpl; lra. }
  split; [simpl; lia|]. split; [exact H|].
  intros (e & He & _). congruence.
Qed.

(** C7.  For a well-formed batch the second pass finds, for each
    utterance [i], the greatest posterior [M] over all frames and keywords
    once the padded frames are zeroed, and a keyword [idx] that reaches
    it; the utterance adds [n i], at most 1, to the count of correct
    predictions, and adds 0 when [M] is exactly 0.5, whatever the target:
    0.5 is neither above nor below 0.5.  The accuracy returned is the
    count divided by the batch size. *)
Theorem half_is_neither_trigger_nor_filler logits target lengths B T D
  (min_duration : Z) :
  well_formed logits target lengths B T D ->
  ∃ (loss : R) (max_logits : Tensor2) (n : nat -> nat),
    masked_max_logits logits (padding_mask lengths) = Ok max_logits
    ∧ (∀ i l, (i < B)%nat -> lengths !! i = Some l ->
         ∃ M idx,
           utterance_pred max_logits i = Ok (M, idx)
           ∧ (∃ t, (t < T)%nat ∧ (idx < D)%nat
                   ∧ M = masked_posterior logits l i t idx)
           ∧ (∀ t j, (t < T)%nat -> (j < D)%nat ->
                     masked_posterior logits l i t j <= M)
           ∧ correct_incr M idx target i = Ok (n i)
           ∧ (n i ≤ 1)%nat
           ∧ (M = 0.5 -> n i = 0%nat))
    ∧ max_polling_loss logits target lengths min_duration
      = Ok (loss, INR (sum_list (n <$> seq 0 B)) / INR B)
    ∧ ∀ idx (target' : list Z) i, correct_incr 0.5 idx target' i = Ok 0%nat.
Proof.
  intros [Hok Htl].
  destruct (batch_loss_terms _ target _ _ _ _ Hok ltac:(lia) min_duration)
    as (c & _ & Hloss).
  destruct (batch_accuracy_counts _ target _ _ _ _ Hok ltac:(lia))
    as (ml & n & Hml & Hn & Hacc).
  destruct (masked_max_logits_spec _ _ _ _ _ Hok) as (ml' & Hml' & Hpred).
  rewrite Hml in Hml'. injection Hml' as <-.
  eexists. exists ml, n. split; [done|]. split_and!.
  - intros i l Hi Hl.
    destruct (Hn i Hi) as (M & idx & HM & Hc & H1).
    destruct (Hpred i l Hi Hl)
      as (M' & idx' & HM' & Hidx & (t & Ht & HMt) & Hub).
    rewrite HM in HM'. injection HM' as <- <-.
    exists M, idx. split_and!; try done.
    + exists t. done.
    + intros ->. rewrite correct_incr_half in Hc. by injection Hc.
  - unfold max_polling_loss. rewrite Hloss, Hacc. done.
  - apply correct_incr_half.
Qed.

(** The theorem at the sample batch. *)
Lemma half_is_neither_trigger_nor_filler_witness :
  ∃ (loss : R) (max_logits : Tensor2) (n : nat -> nat),
    masked_max_logits sample_logits (padding_mask sample_lengths)
    = Ok max_logits
    ∧ (∀ i l, (i < 2)%nat -> sample_lengths !! i = Some l ->
         ∃ M idx,
           utterance_pred max_logits i = Ok (M, idx)
           ∧ (∃ t, (t < 2)%nat ∧ (idx < 2)%nat
                   ∧ M = masked_posterior sample_logits l i t idx)
           ∧ (∀ t j, (t < 2)%nat -> (j < 2)%nat ->
                     masked_posterior sample_logits l i t j <= M)
           ∧ correct_incr M idx sample_target i = Ok (n i)
           ∧ (n i ≤ 1)%nat
           ∧ (M = 0.5 -> n i = 0%nat))
    ∧ max_polling_loss sample_logits sample_target sample_lengths 0
      = Ok (loss, INR (sum_list (n <$> seq 0 2)) / INR 2)
    ∧ ∀ idx (target' : list Z) i, correct_incr 0.5 idx target' i = Ok 0%nat.
Proof.
  apply (half_is_neither_trigger_nor_filler sample_logits sample_target
           sample_lengths 2 2 2 0 sample_well_formed).
Defined.

#[local] Close Scope R_scope.

(** ** Further properties of the evaluator *)

#[local] Open Scope R_scope.

Lemma ln_le_compat (x y : R) : 0 < x -> x <= y -> ln x <= ln y.
Proof.
  intros Hx [Hlt | ->]; [|lra]. left. by apply ln_increasing.
Qed.

(** Minus the logarithm of a clamped number lies between 0 and
    [-log(1e-8)]. *)
Lemma neg_ln_clamp_range (x : R) : 0 <= - ln (clamp eps 1 x) <= - ln eps.
Proof.
  pose proof eps_range as He. pose proof (clamp_bounds x) as Hc.
  assert (ln (clamp eps 1 x) <= ln 1) by (apply ln_le_compat; lra).
  assert (ln eps <= ln (clamp eps 1 x)) by (apply ln_le_compat; lra).
  rewrite ln_1 in *. lra.
Qed.

Lemma tmax_elem (l : list R) (M : R) : tmax l = Ok M -> M ∈ l.
Proof. by intros [H _]%tmax_spec. Qed.

Lemma tmin_elem (l : list R) (M : R) : tmin l = Ok M -> M ∈ l.
Proof. by intros [H _]%tmin_spec. Qed.

Lemma keyword_term_range logits mask min_duration i j v :
  keyword_term logits mask min_duration i j = Ok v ->
  0 <= v <= - ln eps.
Proof.
  unfold keyword_term. intros H.
  apply result_bind_ok in H as (col & _ & H).
  apply result_bind_ok in H as (mi & _ & H).
  apply result_bind_ok in H as (prob & _ & H).
  apply result_bind_ok in H as (p & Hp & [= <-]).
  apply tmax_elem, list_elem_of_fmap in Hp as (x & -> & _).
  apply neg_ln_clamp_range.
Qed.

Lemma filler_term_range logits mask i j v :
  filler_term logits mask i j = Ok v ->
  0 <= v <= - ln eps.
Proof.
  unfold filler_term. intros H.
  apply result_bind_ok in H as (col & _ & H).
  apply result_bind_ok in H as (mi & _ & H).
  apply result_bind_ok in H as (prob & _ & H).
  apply result_bind_ok in H as (p & Hp & [= <-]).
  apply tmin_elem, list_elem_of_fmap in Hp as (x & -> & _).
  apply neg_ln_clamp_range.
Qed.

Lemma loss_term_range logits mask target min_duration i j v :
  loss_term logits mask target min_duration i j = Ok v ->
  0 <= v <= - ln eps.
Proof.
  unfold loss_term. intros H.
  apply result_bind_ok in H as (t & _ & H).
  destruct (t =? Z.of_nat j)%Z;
    [by eapply keyword_term_range | by eapply filler_term_range].
Qed.

(** A loop whose body never lowers the accumulator does not lower it. *)
Lemma for_each_grows {A} (body : A -> R -> result R) (xs : list A)
  (s s' : R) :
  (∀ x a a', body x a = Ok a' -> a <= a') ->
  for_each body xs s = Ok s' ->
  s <= s'.
Proof.
  intros Hb. revert s. induction xs as [|x xs IH]; intros s H.
  - injection H as <-. lra.
  - cbn [for_each] in H. apply result_bind_ok in H as (a & Ha & H).
    apply Hb in Ha. apply IH in H. lra.
Qed.

Lemma for_each_count {A} (body : A -> nat -> result nat) (xs : list A)
  (s s' : nat) :
  (∀ x a a', body x a = Ok a' -> (a ≤ a' ≤ a + 1)%nat) ->
  for_each body xs s = Ok s' ->
  (s ≤ s' ≤ s + length xs)%nat.
Proof.
  intros Hb. revert s. induction xs as [|x xs IH]; intros s H.
  - injection H as <-. simpl. lia.
  - cbn [for_each] in H. apply result_bind_ok in H as (a & Ha & H).
    apply Hb in Ha. apply IH in H. simpl. lia.
Qed.

Lemma correct_incr_le (max_p : R) (idx : nat) (target : list Z) (i n : nat) :
  correct_incr max_p idx target i = Ok n -> (n ≤ 1)%nat.
Proof.
  unfold correct_incr. intros H.
  apply result_bind_ok in H as (n1 & H1 & H).
  apply result_bind_ok in H as (n2 & H2 & [= <-]).
  destruct (Rlt_dec 0.5 max_p) as [Hhi|Hhi];
    destruct (Rlt_dec max_p 0.5) as [Hlo|Hlo]; try lra.
  - injection H2 as <-.
    apply result_bind_ok in H1 as (t & _ & [= <-]).
    destruct (Z.of_nat idx =? t)%Z; lia.
  - injection H1 as <-.
    apply result_bind_ok in H2 as (t & _ & [= <-]).
    destruct (t <? 0)%Z; lia.
  - injection H1 as <-. injection H2 as <-. lia.
Qed.

Lemma Rdiv_range (a b hi : R) :
  0 < b -> 0 <= a <= b * hi -> 0 <= a / b <= hi.
Proof.
  intros Hb [H0 Hhi]. unfold Rdiv.
  assert (Hi : 0 < / b) by (by apply Rinv_0_lt_compat).
  split.
  - apply Rmult_le_pos; lra.
  - apply (Rmult_le_reg_r b); [done|].
    rewrite Rmult_assoc, Rinv_l by lra. lra.
Qed.

Lemma batch_loss_nonneg logits mask target min_duration loss :
  batch_loss logits mask target min_duration = Ok loss ->
  0 <= loss.
Proof.
  unfold batch_loss. intros Hl.
  apply result_bind_ok in Hl as (total & Ht & Hl).
  destruct (Nat.eqb_spec (size0 logits) 0) as [|HB]; [done|].
  injection Hl as <-.
  apply for_each_grows in Ht.
  - assert (HB' : 0 < INR (size0 logits)) by (apply lt_0_INR; lia).
    apply Rmult_le_pos; [done|]. by apply Rlt_le, Rinv_0_lt_compat.
  - intros i a a' Hi.
    apply for_each_grows in Hi; [done|].
    intros j b b' Hj. apply result_bind_ok in Hj as (v & Hv & [= <-]).
    apply loss_term_range in Hv. lra.
Qed.

Lemma batch_accuracy_range logits mask target acc :
  batch_accuracy logits mask target = Ok acc -> 0 <= acc <= 1.
Proof.
  unfold batch_accuracy. intros Ha.
  apply result_bind_ok in Ha as (ml & _ & Ha).
  apply result_bind_ok in Ha as (num & Hn & Ha).
  destruct (Nat.eqb_spec (size0 logits) 0) as [|HB]; [done|].
  injection Ha as <-.
  apply for_each_count in Hn.
  - rewrite length_seq in Hn.
    assert (HB' : 0 < INR (size0 logits)) by (apply lt_0_INR; lia).
    assert (Hnum : 0 <= INR num <= INR (size0 logits)).
    { split; [apply pos_INR | apply le_INR; lia]. }
    apply Rdiv_range; [done | lra].
  - intros i a a' Hi.
    apply result_bind_ok in Hi as ([M idx] & _ & Hi).
    apply result_bind_ok in Hi as (n & Hc & [= <-]).
    apply correct_incr_le in Hc. lia.
Qed.

(** X1.  Whenever the evaluator returns, the loss is not negative: each
    of the terms is minus the logarithm of a number clamped to at most 1,
    and their sum is divided by the number of utterances. *)
Theorem loss_is_not_negative logits target lengths min_duration loss acc :
  max_polling_loss logits target lengths min_duration = Ok (loss, acc) ->
  0 <= loss.
Proof.
  unfold max_polling_loss. intros H.
  apply result_bind_ok in H as (loss' & Hl & H).
  apply result_bind_ok in H as (acc' & _ & [= <- <-]).
  by apply batch_loss_nonneg in Hl.
Qed.

(** X2.  Whenever the evaluator returns, the accuracy lies between 0 and
    1: an utterance adds at most 1 to [num_correct], since its maximum
    cannot be both above and below 0.5. *)
Theorem accuracy_is_a_fraction logits target lengths min_duration loss acc :
  max_polling_loss logits target lengths min_duration = Ok (loss, acc) ->
  0 <= acc <= 1.
Proof.
  unfold max_polling_loss. intros H.
  apply result_bind_ok in H as (loss' & _ & H).
  apply result_bind_ok in H as (acc' & Ha & [= <- <-]).
  by apply batch_accuracy_range in Ha.
Qed.

#[local] Close Scope R_scope.

(** [m[:k] = True] clears no bit. *)
Lemma set_prefix_true_false (m : list bool) (k : Z) (t : nat) :
  set_prefix_true m k !! t = Some false -> m !! t = Some false.
Proof.
  unfold set_prefix_true. remember (slice_stop k (length m)) as s eqn:Hs.
  intros H. destruct (decide (t < s)%nat) as [Hlt|Hge].
  - rewrite lookup_app_l in H by (rewrite length_replicate; lia).
    apply lookup_replicate in H as [[=] _].
  - rewrite lookup_app_r in H by (rewrite length_replicate; lia).
    rewrite length_replicate, lookup_drop in H.
    rewrite <- H. f_equal. lia.
Qed.

Lemma zip_fill_agree (f f' : nat -> R) (m : list bool) (T : nat) (v : R) :
  (∀ t, (t < T)%nat -> m !! t = Some false -> f t = f' t) ->
  zip_with (fill v) (f <$> seq 0 T) m = zip_with (fill v) (f' <$> seq 0 T) m.
Proof.
  intros Hf. apply list_eq. intros t.
  rewrite !lookup_zip_with, !list_lookup_fmap.
  destruct (decide (t < T)%nat) as [Ht|Ht].
  - rewrite lookup_seq_lt by done. simpl.
    destruct (m !! t) as [[|]|] eqn:Hm; simpl; [done | | done].
    by rewrite Hf.
  - by rewrite lookup_seq_ge by lia.
Qed.

Section PaddingIsIgnored.

Variables (logits logits' : Tensor3) (lengths : list Z) (B T D : nat).
Hypothesis Hok : batch_ok logits lengths B T D.
Hypothesis Hok' : batch_ok logits' lengths B T D.
Hypothesis Hsame : same_valid_frames logits logits' lengths.

#[local] Open Scope R_scope.

Lemma mask_row_false (i t : nat) (l : Z) :
  (t < T)%nat ->
  ((fun t : nat => bool_decide (l ≤ Z.of_nat t)%Z) <$> seq 0 T) !! t
  = Some false ->
  (Z.of_nat t < l)%Z.
Proof.
  intros Ht. rewrite list_lookup_fmap, lookup_seq_lt by done. simpl.
  intros [= H%bool_decide_eq_false]. lia.
Qed.

Lemma keyword_term_same (min_duration : Z) (i j : nat) :
  (i < B)%nat -> (j < D)%nat ->
  keyword_term logits (padding_mask lengths) min_duration i j
  = keyword_term logits' (padding_mask lengths) min_duration i j.
Proof.
  intros Hi Hj.
  destruct (batch_ok_lengths _ _ _ _ _ i Hok Hi) as [l Hl].
  unfold keyword_term.
  rewrite (batch_ok_column _ _ _ _ _ Hok i j) by done.
  rewrite (batch_ok_column _ _ _ _ _ Hok' i j) by done.
  rewrite (batch_ok_mask_row _ _ _ _ _ Hok i l) by done.
  simpl.
  rewrite !masked_fill_ok
    by (by rewrite set_prefix_true_length, !length_fmap).
  simpl. do 3 f_equal.
  apply zip_fill_agree. intros t Ht Hm.
  apply set_prefix_true_false in Hm.
  apply (Hsame i l); [done|]. by apply (mask_row_false i).
Qed.

Lemma filler_term_same (i j : nat) :
  (i < B)%nat -> (j < D)%nat ->
  filler_term logits (padding_mask lengths) i j
  = filler_term logits' (padding_mask lengths) i j.
Proof.
  intros Hi Hj.
  destruct (batch_ok_lengths _ _ _ _ _ i Hok Hi) as [l Hl].
  unfold filler_term.
  rewrite (batch_ok_column _ _ _ _ _ Hok i j) by done.
  rewrite (batch_ok_column _ _ _ _ _ Hok' i j) by done.
  simpl.
  rewrite (batch_ok_mask_row _ _ _ _ _ Hok i l) by done.
  simpl.
  rewrite !masked_fill_ok by (by rewrite ?length_map, ?length_fmap).
  simpl. do 3 f_equal.
  change (map (fun p => 1 - p)) with (fmap (M := list) (fun p : R => 1 - p)).
  rewrite <- !list_fmap_compose.
  apply zip_fill_agree. intros t Ht Hm. simpl. f_equal.
  apply (Hsame i l); [done|]. by apply (mask_row_false i).
Qed.

Lemma zero_padding_same :
  zip_with zero_padding logits (padding_mask lengths)
  = zip_with zero_padding logits' (padding_mask lengths).
Proof.
  pose proof Hok as (HB & Hr & _ & _ & Hlen & _ & HT).
  pose proof Hok' as (HB' & Hr' & _).
  apply list_eq. intros i. rewrite !lookup_zip_with.
  destruct (decide (i < B)%nat) as [Hi|Hi].
  2:{ rewrite (lookup_ge_None_2 logits i), (lookup_ge_None_2 logits' i)
        by lia. done. }
  destruct (lookup_lt_is_Some_2 logits i ltac:(lia)) as [utt Hu].
  destruct (lookup_lt_is_Some_2 logits' i ltac:(lia)) as [utt' Hu'].
  destruct (lookup_lt_is_Some_2 lengths i ltac:(lia)) as [l Hl].
  rewrite Hu, Hu', (padding_mask_row _ T i l HT Hl). simpl. f_equal.
  destruct (rectangular_lookup _ _ _ _ _ Hr Hu) as [HuT HuD].
  destruct (rectangular_lookup _ _ _ _ _ Hr' Hu') as [HuT' HuD'].
  unfold zero_padding. apply list_eq. intros t.
  rewrite !lookup_zip_with, list_lookup_fmap.
  destruct (decide (t < T)%nat) as [Ht|Ht].
  2:{ rewrite (lookup_ge_None_2 utt t), (lookup_ge_None_2 utt' t) by lia.
      done. }
  destruct (lookup_lt_is_Some_2 utt t ltac:(lia)) as [fr Hfr].
  destruct (lookup_lt_is_Some_2 utt' t ltac:(lia)) as [fr' Hfr'].
  rewrite Hfr, Hfr', lookup_seq_lt by done. simpl. f_equal.
  rewrite Forall_lookup in HuD, HuD'.
  pose proof (HuD t fr Hfr) as Hlf. pose proof (HuD' t fr' Hfr') as Hlf'.
  apply list_eq. intros j.
  change (map ?f ?l !! j) with ((f <$> l) !! j).
  rewrite !list_lookup_fmap.
  destruct (decide (j < D)%nat) as [Hj|Hj].
  2:{ rewrite (lookup_ge_None_2 fr j), (lookup_ge_None_2 fr' j) by lia.
      done. }
  destruct (lookup_lt_is_Some_2 fr j ltac:(lia)) as [p Hp].
  destruct (lookup_lt_is_Some_2 fr' j ltac:(lia)) as [p' Hp'].
  rewrite Hp, Hp'. simpl. f_equal. unfold fill.
  destruct (bool_decide (l ≤ Z.of_nat t)%Z) eqn:E; [done|].
  apply bool_decide_eq_false in E.
  pose proof (Hsame i l t j Hl ltac:(lia)) as Hs.
  unfold posterior in Hs. by rewrite Hu, Hu', Hfr, Hfr', Hp, Hp' in Hs.
Qed.

(** X3.  The numbers held in padded frames never reach the result: two
    well-shaped batches that agree at every frame [t < lengths[i]] give the
    same outcome, for every target vector and every [min_duration]. *)
Theorem padded_frames_are_ignored (target : list Z) (min_duration : Z) :
  max_polling_loss logits target lengths min_duration
  = max_polling_loss logits' target lengths min_duration.
Proof.
  pose proof Hok as (HB & _). pose proof Hok' as (HB' & _).
  unfold max_polling_loss.
  assert (Hl : batch_loss logits (padding_mask lengths) target min_duration
               = batch_loss logits' (padding_mask lengths) target
                   min_duration).
  { unfold batch_loss.
    rewrite (batch_ok_size2 _ _ _ _ _ Hok), (batch_ok_size2 _ _ _ _ _ Hok').
    unfold size0. rewrite HB, HB'. f_equal.
    apply for_each_ext. intros i a Hi%elem_of_seq.
    apply for_each_ext. intros j a' Hj%elem_of_seq.
    unfold loss_term. destruct (index target i) as [t|e]; [simpl | done].
    destruct (t =? Z.of_nat j)%Z;
      [rewrite keyword_term_same by lia | rewrite filler_term_same by lia];
      done. }
  assert (Ha : batch_accuracy logits (padding_mask lengths) target
               = batch_accuracy logits' (padding_mask lengths) target).
  { unfold batch_accuracy, masked_max_logits.
    rewrite (masked_fill_frames_ok _ _ _ _ _ Hok),
      (masked_fill_frames_ok _ _ _ _ _ Hok'), zero_padding_same.
    unfold size0. by rewrite HB, HB'. }
  by rewrite Hl, Ha.
Qed.

End PaddingIsIgnored.

Lemma Rsum_le (f g : nat -> R) (n : nat) :
  (∀ k, (k < n)%nat -> (f k <= g k)%R) -> (Rsum f n <= Rsum g n)%R.
Proof.
  unfold Rsum. intros H.
  assert (Hgen : ∀ l : list nat, (∀ k, k ∈ l -> (f k <= g k)%R) ->
            (foldr Rplus 0 (f <$> l) <= foldr Rplus 0 (g <$> l))%R).
  { induction l as [|k l IH]; intros Hl; csimpl; [lra|].
    assert (f k <= g k)%R by (apply Hl; left).
    assert (foldr Rplus 0 (f <$> l) <= foldr Rplus 0 (g <$> l))%R
      by (apply IH; intros k' Hk'; apply Hl; by right).
    lra. }
  apply Hgen. intros k Hk%elem_of_seq. apply H. lia.
Qed.

Section MinDuration.

Variables (logits : Tensor3) (target lengths : list Z) (B T D : nat).
Hypothesis Hwf : well_formed logits target lengths B T D.
Variables (d d' : Z).
Hypothesis Hd : (0 ≤ d ≤ d')%Z.

#[local] Open Scope R_scope.

Lemma keyword_term_grows (i j : nat) (v v' : R) :
  (i < B)%nat -> (j < D)%nat ->
  keyword_term logits (padding_mask lengths) d i j = Ok v ->
  keyword_term logits (padding_mask lengths) d' i j = Ok v' ->
  v <= v'.
Proof.
  destruct Hwf as [Hok Htl]. intros Hi Hj Hv Hv'.
  destruct (batch_ok_lengths _ _ _ _ _ i Hok Hi) as [l Hl].
  pose proof (batch_ok_length _ _ _ _ _ Hok i l Hl) as Hlr.
  destruct (decide (l ≤ d')%Z) as [Hall|Hsome].
  - rewrite (keyword_term_all_excluded _ _ _ _ _ Hok i j l) in Hv'
      by (done || lia).
    injection Hv' as <-. by apply keyword_term_range in Hv as [_ Hv].
  - assert (Hin : ∀ k : Z, (0 ≤ k < l)%Z ->
              posterior logits i (Z.to_nat k) j
              ∈ posteriors_between logits i j k l T).
    { intros k Hk. apply posteriors_between_elem. exists (Z.to_nat k).
      split; [done|]. lia. }
    destruct (tmax_nonempty (posteriors_between logits i j d l T))
      as [M HM].
    { intros Hnil. specialize (Hin d ltac:(lia)).
      rewrite Hnil in Hin. by apply elem_of_nil in Hin. }
    destruct (tmax_nonempty (posteriors_between logits i j d' l T))
      as [M' HM'].
    { intros Hnil. specialize (Hin d' ltac:(lia)).
      rewrite Hnil in Hin. by apply elem_of_nil in Hin. }
    rewrite (keyword_term_value _ _ _ _ _ Hok i j l Hi Hj Hl d M) in Hv
      by (done || lia).
    rewrite (keyword_term_value _ _ _ _ _ Hok i j l Hi Hj Hl d' M') in Hv'
      by (done || lia).
    injection Hv as <-. injection Hv' as <-.
    apply tmax_spec in HM as [_ Hub]. apply tmax_spec in HM' as [HM' _].
    assert (HMM : M' <= M).
    { apply Hub. apply posteriors_between_elem in HM' as (t & -> & Ht & Hr).
      apply posteriors_between_elem. exists t. split; [done|]. lia. }
    apply clamp_mono in HMM.
    pose proof (clamp_bounds M') as Hb. pose proof eps_range as He.
    assert (ln (clamp eps 1 M') <= ln (clamp eps 1 M))
      by (apply ln_le_compat; lra).
    lra.
Qed.

(** X4.  For a well-formed batch and [0 <= d <= d'], the evaluator
    returns for [min_duration = d] and for [min_duration = d'], with the
    same accuracy and with a loss that is no smaller for [d']: masking
    more leading frames can only lower the maximum of a keyword column. *)
Theorem loss_grows_with_min_duration :
  ∃ loss loss' acc,
    max_polling_loss logits target lengths d = Ok (loss, acc)
    ∧ max_polling_loss logits target lengths d' = Ok (loss', acc)
    ∧ loss <= loss'.
Proof.
  pose proof Hwf as [Hok Htl].
  destruct (batch_loss_terms _ target _ _ _ _ Hok ltac:(lia) d)
    as (c & Hc & Hloss).
  destruct (batch_loss_terms _ target _ _ _ _ Hok ltac:(lia) d')
    as (c' & Hc' & Hloss').
  destruct (batch_accuracy_counts _ target _ _ _ _ Hok ltac:(lia))
    as (ml & n & _ & _ & Hacc).
  eexists _, _, _. unfold max_polling_loss.
  rewrite Hloss, Hloss', Hacc. simpl. split_and!; try done.
  assert (HB : 0 < INR B).
  { destruct Hok as (_ & _ & ? & _). apply lt_0_INR. lia. }
  apply Rmult_le_compat_r; [left; by apply Rinv_0_lt_compat|].
  apply Rsum_le. intros i Hi. apply Rsum_le. intros j Hj.
  specialize (Hc i j Hi Hj). specialize (Hc' i j Hi Hj).
  unfold loss_term in Hc, Hc'.
  destruct (index target i) as [t|e]; [simpl in Hc, Hc' | done].
  destruct (t =? Z.of_nat j)%Z.
  - by apply (keyword_term_grows i j).
  - rewrite Hc in Hc'. injection Hc' as <-. lra.
Qed.

End MinDuration.

Lemma masked_posterior_valid logits l i t j :
  (Z.of_nat t < l)%Z ->
  masked_posterior logits l i t j = posterior logits i t j.
Proof.
  intros H. unfold masked_posterior, fill.
  by rewrite bool_decide_eq_false_2 by lia.
Qed.

Lemma masked_posterior_padding logits l i t j :
  (l ≤ Z.of_nat t)%Z -> masked_posterior logits l i t j = 0%R.
Proof.
  intros H. unfold masked_posterior, fill.
  by rewrite bool_decide_eq_true_2 by lia.
Qed.

Lemma correct_incr_filler (M : R) (idx : nat) (target : list Z) (i : nat)
  (t : Z) :
  target !! i = Some t -> (t < 0)%Z ->
  correct_incr M idx target i
  = Ok (if Rlt_dec M 0.5 then 1%nat else 0%nat).
Proof.
  intros Ht Hneg. unfold correct_incr.
  rewrite (proj2 (index_ok _ _ _) Ht).
  destruct (Rlt_dec 0.5 M) as [Hhi|Hhi];
    destruct (Rlt_dec M 0.5) as [Hlo|Hlo]; simpl; try lra; try done.
  - destruct (Z.eqb_spec (Z.of_nat idx) t); [lia | done].
  - destruct (Z.ltb_spec t 0); [done | lia].
Qed.

Lemma correct_incr_keyword (M : R) (idx : nat) (target : list Z) (i : nat)
  (t : Z) :
  target !! i = Some t -> (0 ≤ t)%Z ->
  correct_incr M idx target i
  = Ok (if Rlt_dec 0.5 M then (if (Z.of_nat idx =? t)%Z then 1%nat else 0%nat)
        else 0%nat).
Proof.
  intros Ht Hpos. unfold correct_incr.
  rewrite (proj2 (index_ok _ _ _) Ht).
  destruct (Rlt_dec 0.5 M) as [Hhi|Hhi];
    destruct (Rlt_dec M 0.5) as [Hlo|Hlo]; simpl; try lra; try done.
  - destruct (Z.of_nat idx =? t)%Z; simpl; f_equal; lia.
  - destruct (Z.ltb_spec t 0); [lia | done].
Qed.

Section Decisions.

Variables (logits : Tensor3) (target lengths : list Z) (B T D : nat).
Hypothesis Hwf : well_formed logits target lengths B T D.
Variables (i : nat) (t l : Z).
Hypothesis Ht : target !! i = Some t.
Hypothesis Hl : lengths !! i = Some l.

#[local] Open Scope R_scope.

(** X5.  In the accuracy pass a filler utterance ([target[i] < 0]) of a
    well-formed batch is counted as correct when every posterior of its
    valid frames is below 0.5, and is not counted when one of them is 0.5
    or more. *)
Theorem filler_is_correct_iff_all_below_half :
  (t < 0)%Z ->
  ∃ max_logits M idx,
    masked_max_logits logits (padding_mask lengths) = Ok max_logits
    ∧ utterance_pred max_logits i = Ok (M, idx)
    ∧ ((∀ t' j, (Z.of_nat t' < l)%Z -> (j < D)%nat ->
                posterior logits i t' j < 0.5)
       -> correct_incr M idx target i = Ok 1%nat)
    ∧ ((∃ t' j, (Z.of_nat t' < l)%Z ∧ (j < D)%nat
                ∧ 0.5 <= posterior logits i t' j)
       -> correct_incr M idx target i = Ok 0%nat).
Proof.
  intros Hneg. destruct Hwf as [Hok Htl].
  assert (Hi : (i < B)%nat) by (apply lookup_lt_Some in Ht; lia).
  pose proof (batch_ok_length _ _ _ _ _ Hok i l Hl) as Hlr.
  destruct (masked_max_logits_spec _ _ _ _ _ Hok) as (ml & Hml & Hpred).
  destruct (Hpred i l Hi Hl) as (M & idx & HM & Hidx & (t0 & Ht0 & HMt) & Hub).
  exists ml, M, idx. split_and!; try done.
  - intros Hall. rewrite (correct_incr_filler M idx target i t) by done.
    destruct (Rlt_dec M 0.5) as [|Hge]; [done|]. exfalso. apply Hge.
    rewrite HMt. destruct (decide (Z.of_nat t0 < l)%Z).
    + rewrite masked_posterior_valid by done. by apply Hall.
    + rewrite masked_posterior_padding by lia. lra.
  - intros (t' & j & Ht' & Hj & Hp).
    rewrite (correct_incr_filler M idx target i t) by done.
    destruct (Rlt_dec M 0.5) as [Hlt|]; [|done]. exfalso.
    assert (masked_posterior logits l i t' j <= M) by (apply Hub; lia).
    rewrite masked_posterior_valid in * by done. lra.
Qed.

(** X6.  In the accuracy pass an utterance of keyword [j] of a
    well-formed batch is counted as correct only if keyword [j] holds the
    greatest posterior over all valid frames and keywords and that
    posterior exceeds 0.5; it is counted when a valid posterior of keyword
    [j] exceeds 0.5 and every valid posterior of the other keywords. *)
Theorem keyword_is_correct_only_at_its_peak (j : nat) :
  t = Z.of_nat j ->
  ∃ max_logits M idx,
    masked_max_logits logits (padding_mask lengths) = Ok max_logits
    ∧ utterance_pred max_logits i = Ok (M, idx)
    ∧ (correct_incr M idx target i = Ok 1%nat ->
       idx = j ∧ 0.5 < M
       ∧ (∃ t', (Z.of_nat t' < l)%Z ∧ posterior logits i t' j = M)
       ∧ ∀ t' j', (Z.of_nat t' < l)%Z -> (j' < D)%nat ->
                  posterior logits i t' j' <= M)
    ∧ (∀ t', (Z.of_nat t' < l)%Z -> (j < D)%nat ->
         0.5 < posterior logits i t' j ->
         (∀ t'' j', (Z.of_nat t'' < l)%Z -> (j' < D)%nat -> j' ≠ j ->
                    posterior logits i t'' j' < posterior logits i t' j) ->
         correct_incr M idx target i = Ok 1%nat).
Proof.
  intros ->. destruct Hwf as [Hok Htl].
  assert (Hi : (i < B)%nat) by (apply lookup_lt_Some in Ht; lia).
  pose proof (batch_ok_length _ _ _ _ _ Hok i l Hl) as Hlr.
  destruct (masked_max_logits_spec _ _ _ _ _ Hok) as (ml & Hml & Hpred).
  destruct (Hpred i l Hi Hl) as (M & idx & HM & Hidx & (t0 & Ht0 & HMt) & Hub).
  exists ml, M, idx. split_and!; try done.
  - rewrite (correct_incr_keyword M idx target i (Z.of_nat j)) by (done || lia).
    destruct (Rlt_dec 0.5 M) as [Hhi|]; [|done].
    destruct (Z.eqb_spec (Z.of_nat idx) (Z.of_nat j)) as [Heq|]; [|done].
    intros _. apply Nat2Z.inj in Heq as ->.
    assert (Hvalid : (Z.of_nat t0 < l)%Z).
    { destruct (decide (Z.of_nat t0 < l)%Z); [done|].
      rewrite masked_posterior_padding in HMt by lia. lra. }
    rewrite masked_posterior_valid in HMt by done.
    split_and!; try done.
    + by exists t0.
    + intros t' j' Ht' Hj'.
      rewrite <- (masked_posterior_valid logits l) by done.
      apply Hub; lia.
  - intros t' Ht' Hj Hp Hdom.
    rewrite (correct_incr_keyword M idx target i (Z.of_nat j)) by (done || lia).
    assert (HpM : posterior logits i t' j <= M).
    { rewrite <- (masked_posterior_valid logits l) by done. apply Hub; lia. }
    destruct (Rlt_dec 0.5 M) as [Hhi|]; [|lra].
    destruct (Z.eqb_spec (Z.of_nat idx) (Z.of_nat j)) as [|Hne]; [done|].
    exfalso.
    assert (Hvalid : (Z.of_nat t0 < l)%Z).
    { destruct (decide (Z.of_nat t0 < l)%Z); [done|].
      rewrite masked_posterior_padding in HMt by lia. lra. }
    rewrite masked_posterior_valid in HMt by done.
    assert (posterior logits i t0 idx < posterior logits i t' j).
    { apply Hdom; [done | done | intros ->; lia]. }
    lra.
Qed.

(** X7.  An utterance whose target is [D] or more, past the last
    keyword, takes the branch of the other keywords in every column of the
    loss, and is never counted as correct. *)
Theorem unknown_keyword_is_never_correct :
  (Z.of_nat D ≤ t)%Z ->
  (∀ j min_duration, (j < D)%nat ->
     loss_term logits (padding_mask lengths) target min_duration i j
     = filler_term logits (padding_mask lengths) i j)
  ∧ ∃ max_logits M idx,
      masked_max_logits logits (padding_mask lengths) = Ok max_logits
      ∧ utterance_pred max_logits i = Ok (M, idx)
      ∧ correct_incr M idx target i = Ok 0%nat.
Proof.
  intros Hbig. destruct Hwf as [Hok Htl].
  assert (Hi : (i < B)%nat) by (apply lookup_lt_Some in Ht; lia).
  split.
  - intros j md Hj. unfold loss_term.
    rewrite (proj2 (index_ok _ _ _) Ht). simpl.
    destruct (Z.eqb_spec t (Z.of_nat j)); [lia | done].
  - destruct (masked_max_logits_spec _ _ _ _ _ Hok) as (ml & Hml & Hpred).
    destruct (Hpred i l Hi Hl) as (M & idx & HM & Hidx & _).
    exists ml, M, idx. split_and!; try done.
    rewrite (correct_incr_keyword M idx target i t) by (done || lia).
    destruct (Rlt_dec 0.5 M); [|done].
    destruct (Z.eqb_spec (Z.of_nat idx) t); [lia | done].
Qed.

End Decisions.

Lemma index_Forall2 {A} (R : A -> A -> Prop) (l l' : list A) (i : nat) :
  Forall2 R l l' ->
  match index l i, index l' i with
  | Ok x, Ok x' => R x x'
  | Raise e, Raise e' => e = e'
  | _, _ => False
  end.
Proof.
  intros H. unfold index.
  destruct (l !! i) as [x|] eqn:E.
  - destruct (Forall2_lookup_l _ _ _ _ _ H E) as (x' & -> & Hx). done.
  - apply lookup_ge_None in E. rewrite (Forall2_length _ _ _ H) in E.
    by rewrite (lookup_ge_None_2 l' i).
Qed.

(** X8.  Only the sign of a negative target matters: two target vectors
    that agree on their keywords and are both negative wherever one is
    give the same outcome, on every input. *)
Theorem filler_labels_are_interchangeable logits target target' lengths
  min_duration :
  Forall2 same_label target target' ->
  max_polling_loss logits target lengths min_duration
  = max_polling_loss logits target' lengths min_duration.
Proof.
  intros Hsame. unfold max_polling_loss.
  assert (Hl : batch_loss logits (padding_mask lengths) target min_duration
               = batch_loss logits (padding_mask lengths) target'
                   min_duration).
  { unfold batch_loss. f_equal.
    apply for_each_ext. intros i a _.
    apply for_each_ext. intros j a' _.
    unfold loss_term. pose proof (index_Forall2 _ _ _ i Hsame) as Hi.
    destruct (index target i) as [t|e], (index target' i) as [t'|e'];
      simpl; try done; [|by subst].
    destruct Hi as [-> | [Hn Hn']]; [done|].
    destruct (Z.eqb_spec t (Z.of_nat j)); [lia|].
    destruct (Z.eqb_spec t' (Z.of_nat j)); [lia | done]. }
  assert (Ha : batch_accuracy logits (padding_mask lengths) target
               = batch_accuracy logits (padding_mask lengths) target').
  { unfold batch_accuracy.
    destruct (masked_max_logits logits (padding_mask lengths)) as [ml|e];
      [simpl | done].
    f_equal. apply for_each_ext. intros i a _.
    destruct (utterance_pred ml i) as [[M idx]|e]; [simpl | done].
    f_equal. unfold correct_incr.
    pose proof (index_Forall2 _ _ _ i Hsame) as Hi.
    destruct (index target i) as [t|e], (index target' i) as [t'|e'];
      simpl; try done; [|by subst].
    destruct Hi as [-> | [Hn Hn']]; [done|].
    destruct (Z.eqb_spec (Z.of_nat idx) t); [lia|].
    destruct (Z.eqb_spec (Z.of_nat idx) t'); [lia|].
    destruct (Z.ltb_spec t 0); [|lia].
    destruct (Z.ltb_spec t' 0); [done | lia]. }
  by rewrite Hl, Ha.
Qed.

Lemma for_each_app {A S} (body : A -> S -> result S) (xs ys : list A) (s : S) :
  for_each body (xs ++ ys) s = for_each body xs s ≫= for_each body ys.
Proof.
  revert s. induction xs as [|x xs IH]; intros s; simpl; [done|].
  destruct (body x s) as [s'|e]; simpl; [apply IH | done].
Qed.

(** A loop whose rounds return up to [n] and whose round [n] raises [e]
    raises [e]. *)
Lemma for_each_raises {St} (body : nat -> St -> result St) (n B : nat)
  (e : py_exn) (s : St) :
  (n < B)%nat ->
  (∀ i a, (i < n)%nat -> ∃ a', body i a = Ok a') ->
  (∀ a, body n a = Raise e) ->
  for_each body (seq 0 B) s = Raise e.
Proof.
  intros Hn Hok Hraise.
  replace B with (n + S (B - S n))%nat by lia.
  rewrite seq_app, for_each_app.
  assert (Hpre : ∃ s', for_each body (seq 0 n) s = Ok s').
  { clear Hraise Hn. revert s. induction n as [|n IH]; intros s; [by eexists|].
    rewrite seq_S, for_each_app.
    destruct (IH ltac:(intros; apply Hok; lia) s) as [s1 ->]. simpl.
    destruct (Hok n s1 ltac:(lia)) as [s2 ->]. by eexists. }
  destruct Hpre as [s' ->]. simpl. by rewrite Hraise.
Qed.

(** X9.  With well-shaped posteriors and lengths, a target vector
    shorter than the batch makes the evaluator raise [IndexError], at the
    first utterance without a label. *)
Theorem short_target_raises_index_error logits target lengths B T D
  min_duration :
  batch_ok logits lengths B T D ->
  (length target < B)%nat ->
  max_polling_loss logits target lengths min_duration = Raise IndexError.
Proof.
  intros Hok Hshort. unfold max_polling_loss.
  assert (Hl : batch_loss logits (padding_mask lengths) target min_duration
               = Raise IndexError); [|by rewrite Hl].
  unfold batch_loss. rewrite (batch_ok_size2 _ _ _ _ _ Hok).
  assert (HB : size0 logits = B) by (by destruct Hok). rewrite HB.
  assert (HD : (1 ≤ D)%nat) by (by destruct Hok as (_ & _ & _ & ? & _)).
  rewrite (for_each_raises _ (length target) B IndexError); [done | done | |].
  - intros i a Hi.
    assert (Hin : (i < B)%nat) by lia.
    destruct (batch_ok_lengths _ _ _ _ _ i Hok Hin) as [l Hl].
    assert (Hrow : ∀ js a,
              (∀ j, j ∈ js -> (j < D)%nat) ->
              ∃ a', for_each (fun j loss =>
                       term ← loss_term logits (padding_mask lengths) target
                                min_duration i j;
                       Ok (loss + term)%R) js a = Ok a').
    { induction js as [|j js IH]; intros b Hjs; [by eexists|].
      cbn [for_each].
      assert (Hj : (j < D)%nat) by (apply Hjs; left).
      destruct (loss_term_ok _ _ _ _ _ Hok i j l Hin Hj Hl target
                  min_duration Hi) as [v ->].
      simpl. apply IH. intros j' Hj'. apply Hjs. by right. }
    apply Hrow. intros j Hj%elem_of_seq. lia.
  - intros a. destruct D as [|D']; [lia|].
    cbn [seq for_each]. unfold loss_term, index.
    by rewrite (lookup_ge_None_2 target (length target)) by lia.
Qed.

Section Confidence.

Variables (logits logits' : Tensor3) (target lengths : list Z) (B T D : nat).
Hypothesis Hok : batch_ok logits lengths B T D.
Hypothesis Hok' : batch_ok logits' lengths B T D.
Variables (i j : nat) (t l : Z) (min_duration : Z).
Hypothesis Ht : target !! i = Some t.
Hypothesis Hl : lengths !! i = Some l.
Hypothesis Hj : (j < D)%nat.
Hypothesis Hmd : (0 ≤ min_duration)%Z.
Hypothesis Hup : ∀ t', (posterior logits i t' j <= posterior logits' i t' j)%R.

#[local] Open Scope R_scope.

Lemma posteriors_max_grows (first : Z) (M M' : R) :
  tmax (posteriors_between logits i j first l T) = Ok M ->
  tmax (posteriors_between logits' i j first l T) = Ok M' ->
  M <= M'.
Proof.
  intros [HM _]%tmax_spec [_ Hub']%tmax_spec.
  apply posteriors_between_elem in HM as (t0 & -> & Ht0 & Hr).
  transitivity (posterior logits' i t0 j); [apply Hup|].
  apply Hub', posteriors_between_elem. by exists t0.
Qed.

(** X10.  Raising posteriors of keyword [j] in utterance [i], the shapes
    and lengths unchanged, does not raise the term of [(i, j)] when [j] is
    the target of the utterance ([0 <= min_duration]), and does not lower
    it when it is not. *)
Theorem confidence_moves_the_term (v v' : R) :
  loss_term logits (padding_mask lengths) target min_duration i j = Ok v ->
  loss_term logits' (padding_mask lengths) target min_duration i j = Ok v' ->
  (t = Z.of_nat j -> v' <= v) ∧ (t ≠ Z.of_nat j -> v <= v').
Proof.
  assert (Hi : (i < B)%nat).
  { destruct Hok as (_ & _ & _ & _ & Hlen & _).
    apply lookup_lt_Some in Hl. lia. }
  pose proof (batch_ok_length _ _ _ _ _ Hok i l Hl) as Hlr.
  pose proof eps_range as He.
  unfold loss_term. rewrite (proj2 (index_ok _ _ _) Ht). simpl.
  intros Hv Hv'. split.
  - intros ->. rewrite Z.eqb_refl in Hv, Hv'.
    destruct (decide (l ≤ min_duration)%Z) as [Hall|Hsome].
    + rewrite (keyword_term_all_excluded _ _ _ _ _ Hok i j l) in Hv
        by done.
      rewrite (keyword_term_all_excluded _ _ _ _ _ Hok' i j l) in Hv'
        by done.
      injection Hv as <-. injection Hv' as <-. lra.
    + assert (Hne : ∀ lg, posteriors_between lg i j min_duration l T ≠ []).
      { intros lg Hnil.
        assert (H : posterior lg i (Z.to_nat min_duration) j
                    ∈ posteriors_between lg i j min_duration l T).
        { apply posteriors_between_elem. exists (Z.to_nat min_duration).
          split; [done|]. lia. }
        rewrite Hnil in H. by apply elem_of_nil in H. }
      destruct (tmax_nonempty _ (Hne logits)) as [M HM].
      destruct (tmax_nonempty _ (Hne logits')) as [M' HM'].
      rewrite (keyword_term_value _ _ _ _ _ Hok i j l Hi Hj Hl _ M) in Hv
        by done.
      rewrite (keyword_term_value _ _ _ _ _ Hok' i j l Hi Hj Hl _ M') in Hv'
        by done.
      injection Hv as <-. injection Hv' as <-.
      pose proof (posteriors_max_grows _ _ _ HM HM') as HMM.
      apply clamp_mono in HMM. pose proof (clamp_bounds M) as Hb.
      assert (ln (clamp eps 1 M) <= ln (clamp eps 1 M'))
        by (apply ln_le_compat; lra).
      lra.
  - intros Hne. rewrite (proj2 (Z.eqb_neq _ _) Hne) in Hv, Hv'.
    destruct (valid_posteriors_max _ _ _ _ _ Hok i j l) as [M HM];
      [done..|].
    destruct (valid_posteriors_max _ _ _ _ _ Hok' i j l) as [M' HM'];
      [done..|].
    rewrite (filler_term_value _ _ _ _ _ Hok i j l Hi Hj Hl M) in Hv by done.
    rewrite (filler_term_value _ _ _ _ _ Hok' i j l Hi Hj Hl M') in Hv'
      by done.
    injection Hv as <-. injection Hv' as <-.
    pose proof (posteriors_max_grows _ _ _ HM HM') as HMM.
    assert (Hc : clamp eps 1 (1 - M') <= clamp eps 1 (1 - M))
      by (apply clamp_mono; lra).
    pose proof (clamp_bounds (1 - M')) as Hb.
    assert (ln (clamp eps 1 (1 - M')) <= ln (clamp eps 1 (1 - M)))
      by (apply ln_le_compat; lra).
    lra.
Qed.

End Confidence.

(** ** Further properties of model composition *)

Lemma get_dict (d : gmap string pyval) (k : string) (dflt : pyval) :
  get (VDict d) k dflt = Ok (default dflt (d !! k)).
Proof. done. Qed.

Lemma contains_dict_some (c : gmap string pyval) (k : string) (v : pyval) :
  c !! k = Some v -> contains k (VDict c) = Ok true.
Proof.
  intros H. unfold contains. by rewrite bool_decide_eq_true_2 by eauto.
Qed.

Lemma contains_dict_none (c : gmap string pyval) (k : string) :
  c !! k = None -> contains k (VDict c) = Ok false.
Proof.
  intros H. unfold contains.
  rewrite bool_decide_eq_false_2; [done|]. rewrite H. by intros [? [=]].
Qed.

Ltac io_next := rewrite io_bind_lift_ok; cbv beta.

Lemma init_global_cmvn_none load layers (d : gmap string pyval) :
  no_statistics d -> init_global_cmvn load layers (VDict d) = IO [] (Ok None).
Proof.
  unfold no_statistics, init_global_cmvn. rewrite get_dict.
  destruct (d !! "cmvn") as [[| | | | |c]|]; try done.
  cbn [default from_option Datatypes.id]. io_next.
  intros [H | H].
  - rewrite (contains_dict_none _ _ H). io_next. done.
  - rewrite (contains_dict_some _ _ _ H). io_next.
    rewrite (getitem_dict _ _ _ H). io_next. done.
Qed.

Lemma init_model_bind_cmvn load layers cfg g :
  init_global_cmvn load layers cfg = IO [] (Ok g) ->
  init_model load layers cfg =
    (input_dim ← lift (getitem cfg "input_dim");
     output_dim ← lift (getitem cfg "output_dim");
     hidden_dim ← lift (getitem cfg "hidden_dim");
     preprocessing ← init_preprocessing layers cfg input_dim hidden_dim;
     '(backbone, hidden_dim) ← init_backbone layers cfg input_dim hidden_dim;
     lift (KWSModel_init layers input_dim output_dim hidden_dim g
             preprocessing backbone)).
Proof.
  intros H. unfold init_model. rewrite H. cbn [mbind io_bind].
  by destruct (_ ≫= _).
Qed.

(** X11.  Without a statistics file (no [cmvn] section, no [cmvn_file]
    key, or [cmvn_file: None]) [load_cmvn] is not consulted, the outcome
    of [init_model] is the same whatever it would return, and a returned
    model has no normalization stage. *)
Theorem no_statistics_no_normalization load layers (d : gmap string pyval) :
  no_statistics d ->
  (∀ load', init_model load' layers (VDict d)
            = init_model load layers (VDict d))
  ∧ ∀ out m, init_model load layers (VDict d) = IO out (Ok m) ->
             global_cmvn m = None.
Proof.
  intros Hno. split.
  - intros load'.
    by rewrite !(init_model_bind_cmvn _ _ _ None)
      by (by apply init_global_cmvn_none).
  - intros out m H.
    apply init_model_ok_inv in H
      as (g & i & o & h & p & b & h' & o1 & o2 & o3
          & Hg & _ & _ & _ & _ & _ & ->).
    rewrite init_global_cmvn_none in Hg by done. by injection Hg as <-.
Qed.

Lemma init_global_cmvn_file load layers (d c : gmap string pyval) (f : pyval) :
  d !! "cmvn" = Some (VDict c) ->
  c !! "cmvn_file" = Some f ->
  f ≠ VNone ->
  init_global_cmvn load layers (VDict d) =
    ('(mean, istd) ← lift (load f);
     norm_var ← lift (getitem (VDict c) "norm_var");
     global_cmvn ← lift (construct (cmvn_raises layers)
                           (GlobalCMVN mean istd norm_var));
     mret (Some global_cmvn)).
Proof.
  intros Hc Hf Hnn. unfold init_global_cmvn.
  rewrite get_dict, Hc. cbn [default from_option Datatypes.id]. io_next.
  rewrite (contains_dict_some _ _ _ Hf). io_next.
  rewrite (getitem_dict _ _ _ Hf). io_next.
  destruct f; try done; cbn [mbind io_bind mret io_ret is_not_none app].
  all: by destruct (lift (load _) ≫= _).
Qed.

(** X12.  When [cmvn.cmvn_file] is set and not [None], the file is
    loaded first: an exception of the loader is the outcome of
    [init_model]; once loaded, a missing [cmvn.norm_var] raises
    [KeyError('norm_var')]; and a returned model normalizes with the loaded
    mean and inverse deviation and the [norm_var] flag. *)
Theorem statistics_file_is_loaded load layers (d c : gmap string pyval)
  (f : pyval) :
  d !! "cmvn" = Some (VDict c) ->
  c !! "cmvn_file" = Some f ->
  f ≠ VNone ->
  (∀ e, load f = Raise e -> init_model load layers (VDict d) = IO [] (Raise e))
  ∧ (∀ stats, load f = Ok stats -> c !! "norm_var" = None ->
       init_model load layers (VDict d) = IO [] (Raise (KeyError "norm_var")))
  ∧ (∀ out m, init_model load layers (VDict d) = IO out (Ok m) ->
       ∃ mean istd norm_var,
         load f = Ok (mean, istd)
         ∧ c !! "norm_var" = Some norm_var
         ∧ global_cmvn m = Some (GlobalCMVN mean istd norm_var)).
Proof.
  intros Hc Hf Hnn.
  pose proof (init_global_cmvn_file load layers d c f Hc Hf Hnn) as Hg.
  split_and!.
  - intros e He. unfold init_model. rewrite Hg, He. done.
  - intros [mean istd] Hs Hnv. unfold init_model. rewrite Hg, Hs. simpl.
    rewrite Hnv. done.
  - intros out m H.
    apply init_model_ok_inv in H
      as (g & i & o & h & p & b & h' & o1 & o2 & o3
          & Hg' & _ & _ & _ & _ & _ & ->).
    rewrite Hg in Hg'.
    apply io_bind_ok in Hg' as (? & [mean istd] & ? & [Hl _]%lift_ok & Hg' & _).
    apply io_bind_ok in Hg' as (? & nv & ? & [Hn _]%lift_ok & Hg' & _).
    built_ok Hg' as Hbuilt.
    injection Hg' as _ <-.
    apply getitem_ok in Hn as (? & [= <-] & Hn).
    exists mean, istd, nv. done.
Qed.

(** X13.  Without a statistics file, the first of the keys [input_dim],
    [output_dim], [hidden_dim], [preprocessing] that the configuration
    lacks is reported by a [KeyError] carrying that key; nothing is
    printed. *)
Theorem missing_key_raises_key_error load layers (d : gmap string pyval)
  (k : string) :
  no_statistics d ->
  first_missing d top_level_keys = Some k ->
  init_model load layers (VDict d) = IO [] (Raise (KeyError k)).
Proof.
  intros Hno Hk.
  rewrite (init_model_bind_cmvn _ _ _ None)
    by (by apply init_global_cmvn_none).
  unfold top_level_keys in Hk. cbn [first_missing] in Hk.
  simpl getitem.
  destruct (d !! "input_dim") as [i|]; [|by injection Hk as <-].
  destruct (d !! "output_dim") as [o|]; [|by injection Hk as <-].
  destruct (d !! "hidden_dim") as [h|]; [|by injection Hk as <-].
  rewrite !io_bind_lift_ok. unfold init_preprocessing. simpl getitem.
  destruct (d !! "preprocessing") as [p|]; [done|]. by injection Hk as <-.
Qed.

Lemma lift_bind_quiet {A B} (template : string) (r : result A)
  (k : A -> io B) :
  (∀ a, quiet_or_exit template (k a)) ->
  quiet_or_exit template (lift r ≫= k).
Proof.
  intros Hk. destruct r as [a|e]; [|done].
  rewrite io_bind_lift_ok. apply Hk.
Qed.

Lemma init_global_cmvn_silent load layers cfg :
  ∃ r, init_global_cmvn load layers cfg = IO [] r.
Proof.
  unfold init_global_cmvn.
  destruct (get cfg "cmvn" (VDict ∅)) as [cmvn|e]; [|by eexists].
  rewrite io_bind_lift_ok.
  destruct (contains "cmvn_file" cmvn) as [[|]|e]; [| |by eexists];
    rewrite io_bind_lift_ok; [|by eexists].
  destruct (getitem cmvn "cmvn_file") as [f|e]; [|by eexists].
  rewrite io_bind_lift_ok. cbn [mbind io_bind mret io_ret app].
  destruct (is_not_none f); [|by eexists].
  destruct (load f) as [[mean istd]|e]; [|by eexists].
  rewrite io_bind_lift_ok.
  destruct (getitem cmvn "norm_var") as [nv|e]; [|by eexists].
  rewrite io_bind_lift_ok.
  destruct (construct _ _) as [c|e]; by eexists.
Qed.

Lemma init_preprocessing_quiet layers cfg i h :
  quiet_or_exit "Unknown preprocessing type {}"
    (init_preprocessing layers cfg i h).
Proof.
  unfold init_preprocessing.
  apply lift_bind_quiet. intros prep. apply lift_bind_quiet. intros ty.
  repeat case_match; try done;
    repeat (apply lift_bind_quiet; intros ?); done.
Qed.

Lemma init_backbone_quiet layers cfg i h :
  quiet_or_exit "Unknown body type {}" (init_backbone layers cfg i h).
Proof.
  unfold init_backbone.
  apply lift_bind_quiet. intros bb. apply lift_bind_quiet. intros ty.
  repeat case_match; try done;
    repeat (apply lift_bind_quiet; intros ?); done.
Qed.

(** X14.  [init_model] writes to standard output only to leave: either
    nothing is printed, or exactly one line, the complaint about the
    preprocessing type or the one about the body type, and the outcome is
    then [SystemExit] with code 1.  In particular a returned model comes
    with no output. *)
Theorem init_model_prints_only_to_exit load layers cfg out r :
  init_model load layers cfg = IO out r ->
  out = []
  ∨ ∃ v, (out = [Printed "Unknown preprocessing type {}" v]
          ∨ out = [Printed "Unknown body type {}" v])
         ∧ r = Raise (SystemExit 1).
Proof.
  unfold init_model.
  destruct (init_global_cmvn_silent load layers cfg) as [[g|e] ->];
    [|intros [= <- <-]; by left].
  cbn [mbind io_bind].
  destruct (getitem cfg "input_dim") as [i|e];
    [|intros [= <- <-]; by left].
  destruct (getitem cfg "output_dim") as [o|e];
    [|intros [= <- <-]; by left].
  destruct (getitem cfg "hidden_dim") as [h|e];
    [|intros [= <- <-]; by left].
  rewrite !io_bind_lift_ok.
  pose proof (init_preprocessing_quiet layers cfg i h) as Hp.
  destruct (init_preprocessing layers cfg i h) as [op [p|e]].
  - destruct op as [|[t v] [|]]; simpl in Hp; try done; [|by destruct Hp].
    cbn [mbind io_bind].
    pose proof (init_backbone_quiet layers cfg i h) as Hb.
    destruct (init_backbone layers cfg i h) as [ob [[b h']|e]].
    + destruct ob as [|[t v] [|]]; simpl in Hb; try done; [|by destruct Hb].
      unfold lift. intros [= <- <-]. by left.
    + destruct ob as [|[t v] [|]]; simpl in Hb; try done.
      * intros [= <- <-]. by left.
      * destruct Hb as [-> [= ->]]. intros [= <- <-]. right. exists v. eauto.
  - destruct op as [|[t v] [|]]; simpl in Hp; try done.
    + intros [= <- <-]. by left.
    + destruct Hp as [-> [= ->]]. intros [= <- <-]. right. exists v. eauto.
Qed.

Lemma known_backbone_cases (v : pyval) :
  known backbone_types v -> v = VStr "gru" ∨ v = VStr "tcn" ∨ v = VStr "mdtc".
Proof.
  intros (s & -> & Hs). unfold backbone_types in Hs.
  rewrite !elem_of_cons, elem_of_nil in Hs.
  destruct Hs as [-> | [-> | [-> | []]]]; auto.
Qed.

(** X15.  A model is returned only for a dictionary that holds
    [input_dim], [output_dim], [hidden_dim], a [preprocessing] dictionary
    with a [type], and a [backbone] dictionary whose [type] is a string and
    which holds the keys of its variant: [num_layers] for gru and tcn;
    [stack_size], [num_stack], [kernel_size] and [hidden_dim] for mdtc. *)
Theorem returned_model_needs_its_keys load layers cfg out m :
  init_model load layers cfg = IO out (Ok m) ->
  ∃ (d prep bb : gmap string pyval) (ty : string),
    cfg = VDict d
    ∧ (∀ k, k ∈ ["input_dim"; "output_dim"; "hidden_dim"] -> is_Some (d !! k))
    ∧ d !! "preprocessing" = Some (VDict prep)
    ∧ is_Some (prep !! "type")
    ∧ d !! "backbone" = Some (VDict bb)
    ∧ bb !! "type" = Some (VStr ty)
    ∧ ∀ k, k ∈ backbone_keys ty -> is_Some (bb !! k).
Proof.
  intros H.
  apply init_model_ok_inv in H
    as (g & i & o & h & p & b & h' & o1 & o2 & o3
        & _ & Hi & Ho & Hh & Hp & Hb & _).
  apply getitem_ok in Hi as (d & -> & Hi).
  apply getitem_ok in Ho as (? & [= <-] & Ho).
  apply getitem_ok in Hh as (? & [= <-] & Hh).
  apply init_preprocessing_ok in Hp as (vp & Hvp & _).
  apply result_bind_ok in Hvp as (prep & Hprep & Hvp).
  apply getitem_ok in Hprep as (? & [= <-] & Hprep).
  apply getitem_ok in Hvp as (prepd & -> & Hvp).
  pose proof Hb as Hb'.
  apply init_backbone_ok in Hb' as (vb & Hvb & Hkb).
  apply result_bind_ok in Hvb as (bb & Hbb & Hvb).
  pose proof Hbb as Hbb'. pose proof Hvb as Hvb'.
  apply getitem_ok in Hbb' as (? & [= <-] & Hbbd).
  apply getitem_ok in Hvb' as (bbd & -> & Hty).
  assert (Hkeys : ∃ ty, vb = VStr ty
            ∧ ∀ k, k ∈ backbone_keys ty -> is_Some (bbd !! k)).
  { apply known_backbone_cases in Hkb as [-> | [-> | ->]].
    - exists "gru". split; [done|].
      rewrite (init_backbone_gru _ _ (VDict bbd)) in Hb by done.
      read_ok Hb as nl Hnl.
      apply getitem_ok in Hnl as (? & [= <-] & Hnl).
      intros k ->%list_elem_of_singleton. eauto.
    - exists "tcn". split; [done|].
      rewrite (init_backbone_tcn _ _ (VDict bbd)) in Hb by done.
      read_ok Hb as nl Hnl.
      apply getitem_ok in Hnl as (? & [= <-] & Hnl).
      intros k ->%list_elem_of_singleton. eauto.
    - exists "mdtc". split; [done|].
      rewrite (init_backbone_mdtc _ _ (VDict bbd)) in Hb by done.
      read_ok Hb as ss Hss. read_ok Hb as ns Hns.
      read_ok Hb as ks Hks. read_ok Hb as hd Hhd.
      apply getitem_ok in Hss as (? & [= <-] & Hss).
      apply getitem_ok in Hns as (? & [= <-] & Hns).
      apply getitem_ok in Hks as (? & [= <-] & Hks).
      apply getitem_ok in Hhd as (? & [= <-] & Hhd).
      intros k Hk. unfold backbone_keys in Hk. simpl in Hk.
      rewrite !elem_of_cons, elem_of_nil in Hk.
      destruct Hk as [-> | [-> | [-> | [-> | []]]]]; eauto. }
  destruct Hkeys as (ty & -> & Hkeys).
  exists d, prepd, bbd, ty.
  split; [done|]. split.
  { intros k Hk. rewrite !elem_of_cons, elem_of_nil in Hk.
    destruct Hk as [-> | [-> | [-> | []]]]; eauto. }
  split; [done|]. split; [eauto|]. split; [done|]. split; [done|].
  exact Hkeys.
Qed.

(** X16.  A returned tcn model is built as [TCN(num_layers, hidden_dim,
    kernel_size, dropout, block_class)] on the top-level [hidden_dim], with
    [kernel_size] 8 unless the backbone section gives one, and with
    [DsCnnBlock] when the section's [ds] is true in an [if], [CnnBlock]
    otherwise; its classifier maps [hidden_dim] to the output
    dimension. *)
Theorem tcn_defaults load layers (d bbd : gmap string pyval) out m :
  d !! "backbone" = Some (VDict bbd) ->
  bbd !! "type" = Some (VStr "tcn") ->
  init_model load layers (VDict d) = IO out (Ok m) ->
  ∃ num_layers hidden,
    bbd !! "num_layers" = Some num_layers
    ∧ d !! "hidden_dim" = Some hidden
    ∧ backbone m
      = TCN num_layers hidden
          (default (VInt 8) (bbd !! "kernel_size"))
          (default (VFloat 0.1%Q) (bbd !! "drouput"))
          (if truthy (default (VBool false) (bbd !! "ds"))
           then DsCnnBlock else CnnBlock)
    ∧ classifier m = Linear hidden (odim m).
Proof.
  intros Hbb Hty H.
  apply init_model_ok_inv in H
    as (g & i & o & h & p & b & h' & o1 & o2 & o3
        & _ & _ & _ & Hh & _ & Hb & ->).
  apply getitem_ok in Hh as (? & [= <-] & Hh).
  rewrite (init_backbone_tcn _ _ (VDict bbd)) in Hb
    by (by apply getitem_dict).
  read_ok Hb as nl Hnl. read_ok Hb as ds Hds.
  read_ok Hb as ks Hks. read_ok Hb as dr Hdr.
  built_ok Hb as Hbuilt.
  apply getitem_ok in Hnl as (? & [= <-] & Hnl).
  injection Hds as <-. injection Hks as <-. injection Hdr as <-.
  injection Hb as _ <- <-. exists nl, h. done.
Qed.

(** X17.  A returned model carries the configured [input_dim] and
    [output_dim], its classifier maps the model's hidden dimension to
    [output_dim], and its projection is decided by [preprocessing.type]
    alone: linear and cnn1d_s1 map [input_dim] to the top-level
    [hidden_dim], for every backbone, mdtc included; none gives no
    projection. *)
Theorem projection_targets_top_level_hidden_dim load layers
  (d prep : gmap string pyval) out m :
  d !! "preprocessing" = Some (VDict prep) ->
  init_model load layers (VDict d) = IO out (Ok m) ->
  ∃ i o h,
    d !! "input_dim" = Some i ∧ d !! "output_dim" = Some o
    ∧ d !! "hidden_dim" = Some h
    ∧ idim m = i ∧ odim m = o
    ∧ classifier m = Linear (hdim m) o
    ∧ (prep !! "type" = Some (VStr "linear")
       ∧ preprocessing m = Some (LinearSubsampling1 i h)
       ∨ prep !! "type" = Some (VStr "cnn1d_s1")
         ∧ preprocessing m = Some (Conv1dSubsampling1 i h)
       ∨ prep !! "type" = Some (VStr "none")
         ∧ preprocessing m = None).
Proof.
  intros Hprep H.
  apply init_model_ok_inv in H
    as (g & i & o & h & p & b & h' & o1 & o2 & o3
        & _ & Hi & Ho & Hh & Hp & _ & ->).
  apply getitem_ok in Hi as (? & [= <-] & Hi).
  apply getitem_ok in Ho as (? & [= <-] & Ho).
  apply getitem_ok in Hh as (? & [= <-] & Hh).
  exists i, o, h. split_and!; try done.
  unfold init_preprocessing in Hp.
  rewrite (getitem_dict _ _ _ Hprep) in Hp.
  read_ok Hp as prep' Hprep'. injection Hprep' as <-.
  read_ok Hp as ty Hty.
  apply getitem_ok in Hty as (? & [= <-] & Hty).
  destruct (eq_str ty "linear") eqn:E1.
  { apply eq_str_true in E1 as ->. built_ok Hp as Hbuilt.
    injection Hp as _ <-. by left. }
  destruct (eq_str ty "cnn1d_s1") eqn:E2.
  { apply eq_str_true in E2 as ->. built_ok Hp as Hbuilt.
    injection Hp as _ <-. right. by left. }
  destruct (eq_str ty "none") eqn:E3; [|done].
  apply eq_str_true in E3 as ->. injection Hp as _ <-. right. by right.
Qed.

(** ** The pipeline and the evaluator together *)


Section Pipeline.

Context {Hidden : Type}.
Variable cmvn_forward : cmvn_module -> Tensor3 -> result Tensor3.
Variable prep_forward : prep_module -> Tensor3 -> result Tensor3.
Variable backbone_forward :
  backbone_module -> Tensor3 -> result (Tensor3 * Hidden).
Variable linear_forward : linear_module -> Tensor3 -> result Tensor3.

#[local] Abbreviation run :=
  (forward Hidden cmvn_forward prep_forward backbone_forward linear_forward).



End Pipeline.

(** ** The further properties at the sample inputs *)

Lemma repadded_batch_ok : batch_ok repadded_logits sample_lengths 2 2 2.
Proof.
  unfold batch_ok, rectangular, repadded_logits, sample_lengths.
  split_and!; try done; try lia; repeat constructor; simpl; lia.
Qed.

Lemma raised_batch_ok : batch_ok raised_logits sample_lengths 2 2 2.
Proof.
  unfold batch_ok, rectangular, raised_logits, sample_lengths.
  split_and!; try done; try lia; repeat constructor; simpl; lia.
Qed.

#[local] Open Scope R_scope.

Lemma loss_is_not_negative_witness :
  0 <= (- ln 0.9 + - ln (1 - 0.2) + - ln (1 - 0.4) + - ln (1 - 0.3)) / 2.
Proof.
  exact (loss_is_not_negative sample_logits sample_target sample_lengths 0 _ _
           sample_batch_evaluation).
Defined.

Lemma accuracy_is_a_fraction_witness : 0 <= 1 <= 1.
Proof.
  exact (accuracy_is_a_fraction sample_logits sample_target sample_lengths 0
           _ _ sample_batch_evaluation).
Defined.

Lemma repadded_same_valid_frames :
  same_valid_frames sample_logits repadded_logits sample_lengths.
Proof.
  intros i l t j Hl Ht.
  destruct i as [|[|i]]; [| |done]; injection Hl as <-.
  - done.
  - destruct t as [|t]; [done | lia].
Qed.

Lemma padded_frames_are_ignored_witness :
  max_polling_loss sample_logits sample_target sample_lengths 0
  = max_polling_loss repadded_logits sample_target sample_lengths 0.
Proof.
  apply (padded_frames_are_ignored sample_logits repadded_logits
           sample_lengths 2 2 2 sample_batch_ok repadded_batch_ok
           repadded_same_valid_frames).
Defined.

Lemma loss_grows_with_min_duration_witness :
  ∃ loss loss' acc,
    max_polling_loss sample_logits sample_target sample_lengths 0
    = Ok (loss, acc)
    ∧ max_polling_loss sample_logits sample_target sample_lengths 1
      = Ok (loss', acc)
    ∧ loss <= loss'.
Proof.
  apply (loss_grows_with_min_duration sample_logits sample_target
           sample_lengths 2 2 2 sample_well_formed 0 1). lia.
Defined.

Lemma filler_is_correct_iff_all_below_half_witness :
  ∃ max_logits M idx,
    masked_max_logits sample_logits (padding_mask sample_lengths)
    = Ok max_logits
    ∧ utterance_pred max_logits 1 = Ok (M, idx)
    ∧ ((∀ t' j, (Z.of_nat t' < 1)%Z -> (j < 2)%nat ->
                posterior sample_logits 1 t' j < 0.5)
       -> correct_incr M idx sample_target 1 = Ok 1%nat)
    ∧ ((∃ t' j, (Z.of_nat t' < 1)%Z ∧ (j < 2)%nat
                ∧ 0.5 <= posterior sample_logits 1 t' j)
       -> correct_incr M idx sample_target 1 = Ok 0%nat).
Proof.
  apply (filler_is_correct_iff_all_below_half sample_logits sample_target
           sample_lengths 2 2 2 sample_well_formed 1 (-1) 1);
    [reflexivity | reflexivity | lia].
Defined.

Lemma keyword_is_correct_only_at_its_peak_witness :
  ∃ max_logits M idx,
    masked_max_logits sample_logits (padding_mask sample_lengths)
    = Ok max_logits
    ∧ utterance_pred max_logits 0 = Ok (M, idx)
    ∧ (correct_incr M idx sample_target 0 = Ok 1%nat ->
       idx = 0%nat ∧ 0.5 < M
       ∧ (∃ t', (Z.of_nat t' < 2)%Z ∧ posterior sample_logits 0 t' 0 = M)
       ∧ ∀ t' j', (Z.of_nat t' < 2)%Z -> (j' < 2)%nat ->
                  posterior sample_logits 0 t' j' <= M)
    ∧ (∀ t', (Z.of_nat t' < 2)%Z -> (0 < 2)%nat ->
         0.5 < posterior sample_logits 0 t' 0 ->
         (∀ t'' j', (Z.of_nat t'' < 2)%Z -> (j' < 2)%nat -> j' ≠ 0%nat ->
                    posterior sample_logits 0 t'' j'
                    < posterior sample_logits 0 t' 0) ->
         correct_incr M idx sample_target 0 = Ok 1%nat).
Proof.
  apply (keyword_is_correct_only_at_its_peak sample_logits sample_target
           sample_lengths 2 2 2 sample_well_formed 0 0 2);
    [reflexivity | reflexivity | reflexivity].
Defined.

Lemma unknown_keyword_is_never_correct_witness :
  (∀ j min_duration, (j < 2)%nat ->
     loss_term sample_logits (padding_mask sample_lengths) [5; -1]%Z
       min_duration 0 j
     = filler_term sample_logits (padding_mask sample_lengths) 0 j)
  ∧ ∃ max_logits M idx,
      masked_max_logits sample_logits (padding_mask sample_lengths)
      = Ok max_logits
      ∧ utterance_pred max_logits 0 = Ok (M, idx)
      ∧ correct_incr M idx [5; -1]%Z 0 = Ok 0%nat.
Proof.
  apply (unknown_keyword_is_never_correct sample_logits [5; -1]%Z
           sample_lengths 2 2 2 (conj sample_batch_ok eq_refl) 0 5 2);
    [reflexivity | reflexivity | simpl; lia].
Defined.

Lemma filler_labels_are_interchangeable_witness :
  max_polling_loss sample_logits [0; -1]%Z sample_lengths 0
  = max_polling_loss sample_logits [0; -7]%Z sample_lengths 0.
Proof.
  apply filler_labels_are_interchangeable.
  repeat constructor; unfold same_label; lia.
Defined.

Lemma short_target_raises_index_error_witness :
  max_polling_loss sample_logits [0%Z] sample_lengths 0 = Raise IndexError.
Proof.
  apply (short_target_raises_index_error sample_logits [0%Z] sample_lengths
           2 2 2 0 sample_batch_ok). simpl. lia.
Defined.

Lemma raised_posteriors :
  ∀ t', posterior sample_logits 0 t' 0 <= posterior raised_logits 0 t' 0.
Proof.
  intros [|[|t']]; unfold posterior; simpl; lra.
Qed.

Lemma confidence_moves_the_term_witness :
  (0%Z = Z.of_nat 0 -> - ln 0.95 <= - ln 0.9)
  ∧ (0%Z ≠ Z.of_nat 0 -> - ln 0.9 <= - ln 0.95).
Proof.
  apply (confidence_moves_the_term sample_logits raised_logits sample_target
           sample_lengths 2 2 2 sample_batch_ok raised_batch_ok 0 0 0 2 0);
    [reflexivity | reflexivity | lia | lia | exact raised_posteriors | |].
  - evaluate_batch. reflexivity.
  - evaluate_batch. reflexivity.
Defined.

#[local] Close Scope R_scope.

Lemma no_statistics_no_normalization_witness :
  (∀ load', init_model load' lenient
              (VDict (sample_dict "none" "mdtc" mdtc_keys))
            = init_model no_cmvn_file lenient
                (VDict (sample_dict "none" "mdtc" mdtc_keys)))
  ∧ ∀ out m, init_model no_cmvn_file lenient
               (VDict (sample_dict "none" "mdtc" mdtc_keys)) = IO out (Ok m) ->
             global_cmvn m = None.
Proof.
  apply (no_statistics_no_normalization no_cmvn_file lenient
           (sample_dict "none" "mdtc" mdtc_keys)).
  vm_compute. exact I.
Defined.

Lemma statistics_file_is_loaded_witness :
  ∃ mean istd norm_var,
    stats_loader (VStr "global_cmvn") = Ok (mean, istd)
    ∧ cmvn_dict !! "norm_var" = Some norm_var
    ∧ global_cmvn cmvn_model = Some (GlobalCMVN mean istd norm_var).
Proof.
  destruct (statistics_file_is_loaded stats_loader lenient sample_dict_with_cmvn
              cmvn_dict (VStr "global_cmvn")) as (_ & _ & H);
    [vm_compute; reflexivity | vm_compute; reflexivity | discriminate |].
  apply (H [] cmvn_model). vm_compute. reflexivity.
Defined.

Lemma missing_key_raises_key_error_witness :
  init_model no_cmvn_file lenient
    (VDict (delete "output_dim" (sample_dict "none" "mdtc" mdtc_keys)))
  = IO [] (Raise (KeyError "output_dim")).
Proof.
  apply missing_key_raises_key_error; vm_compute; [exact I | reflexivity].
Defined.

Lemma init_model_prints_only_to_exit_witness :
  [Printed "Unknown preprocessing type {}" (VStr "conv")] = []
  ∨ ∃ v, ([Printed "Unknown preprocessing type {}" (VStr "conv")]
          = [Printed "Unknown preprocessing type {}" v]
          ∨ [Printed "Unknown preprocessing type {}" (VStr "conv")]
            = [Printed "Unknown body type {}" v])
         ∧ Raise (A := KWSModel) (SystemExit 1) = Raise (SystemExit 1).
Proof.
  apply (init_model_prints_only_to_exit no_cmvn_file lenient
           (sample_config "conv" "tcn" ∅)).
  vm_compute. reflexivity.
Defined.

Lemma returned_model_needs_its_keys_witness :
  ∃ (d prep bb : gmap string pyval) (ty : string),
    sample_config "none" "mdtc" mdtc_keys = VDict d
    ∧ (∀ k, k ∈ ["input_dim"; "output_dim"; "hidden_dim"] -> is_Some (d !! k))
    ∧ d !! "preprocessing" = Some (VDict prep)
    ∧ is_Some (prep !! "type")
    ∧ d !! "backbone" = Some (VDict bb)
    ∧ bb !! "type" = Some (VStr ty)
    ∧ ∀ k, k ∈ backbone_keys ty -> is_Some (bb !! k).
Proof.
  apply (returned_model_needs_its_keys no_cmvn_file lenient
           (sample_config "none" "mdtc" mdtc_keys) [] mdtc_model).
  vm_compute. reflexivity.
Defined.

Lemma tcn_defaults_witness :
  ∃ num_layers hidden,
    (<["type" := VStr "tcn"]> tcn_keys) !! "num_layers" = Some num_layers
    ∧ sample_dict "linear" "tcn" tcn_keys !! "hidden_dim" = Some hidden
    ∧ backbone tcn_model
      = TCN num_layers hidden
          (default (VInt 8)
             ((<["type" := VStr "tcn"]> tcn_keys) !! "kernel_size"))
          (default (VFloat 0.1%Q)
             ((<["type" := VStr "tcn"]> tcn_keys) !! "drouput"))
          (if truthy (default (VBool false)
                        ((<["type" := VStr "tcn"]> tcn_keys) !! "ds"))
           then DsCnnBlock else CnnBlock)
    ∧ classifier tcn_model = Linear hidden (odim tcn_model).
Proof.
  apply (tcn_defaults no_cmvn_file lenient (sample_dict "linear" "tcn" tcn_keys)
           (<["type" := VStr "tcn"]> tcn_keys) [] tcn_model);
    vm_compute; reflexivity.
Defined.

Lemma projection_targets_top_level_hidden_dim_witness :
  ∃ i o h,
    sample_dict "none" "mdtc" mdtc_keys !! "input_dim" = Some i
    ∧ sample_dict "none" "mdtc" mdtc_keys !! "output_dim" = Some o
    ∧ sample_dict "none" "mdtc" mdtc_keys !! "hidden_dim" = Some h
    ∧ idim mdtc_model = i ∧ odim mdtc_model = o
    ∧ classifier mdtc_model = Linear (hdim mdtc_model) o
    ∧ (({["type" := VStr "none"]} : gmap string pyval) !! "type"
       = Some (VStr "linear")
       ∧ preprocessing mdtc_model = Some (LinearSubsampling1 i h)
       ∨ ({["type" := VStr "none"]} : gmap string pyval) !! "type"
         = Some (VStr "cnn1d_s1")
         ∧ preprocessing mdtc_model = Some (Conv1dSubsampling1 i h)
       ∨ ({["type" := VStr "none"]} : gmap string pyval) !! "type"
         = Some (VStr "none")
         ∧ preprocessing mdtc_model = None).
Proof.
  apply (projection_targets_top_level_hidden_dim no_cmvn_file lenient
           (sample_dict "none" "mdtc" mdtc_keys) {["type" := VStr "none"]}
           [] mdtc_model); vm_compute; reflexivity.
Defined.

